(** * Order-queue backend (app.py): token assignment, order lines, queue listing

    A shallow embedding of the three request handlers of [app.py]
    ([generate_token], [get_queue], [clear_orders]) and of [init_db], over

    - the Python values a decoded JSON body is made of ([pyval]), with the
      operators the handlers apply to them ([not], [in], subscription,
      [.items()], [>], [*], [+]) and the exceptions these raise;
    - the two tables of the SQLite file ([tokens], [orders]) as lists of rows
      in rowid order, with the counter behind [AUTOINCREMENT];
    - the transaction of a [with get_db() as conn:] block: commit when the
      block returns, rollback when it raises.

    What is modelled of the engine is what decides whether a statement
    succeeds, which rows it yields and what they hold: parameter binding of
    the [sqlite3] module, the affinity of the declared column types ([TEXT],
    [INTEGER], [REAL]), [NOT NULL], the primary key, rowid allocation, the
    join and [ORDER BY].  The join is run as a nested loop over both tables
    in rowid order and [ORDER BY] as a stable sort, so rows with the same
    timestamp come out in the order the join produced them.  Two conversions
    of the engine are named and not computed: the characters it writes for a
    [REAL] kept in a [TEXT] column, and the number it reads in a text kept
    in a numeric column.

    Inputs of [generate_token] are the value [request.get_json()] returned
    and the two readings of the clock of lines 80 and 81.  Routing, CORS
    headers, the [OPTIONS] branch and failures of the connection itself are
    outside. *)

From Stdlib Require Import ZArith List String Ascii Bool Lia Floats.
From Stdlib Require Import Sorted Permutation DecimalString.
Import ListNotations.

Set Warnings "-register-all".
Set Implicit Arguments.

Local Open Scope string_scope.
Local Open Scope list_scope.
Local Open Scope Z_scope.

(* ================================================================== *)
(** ** Python values and exceptions *)

(** A decoded JSON document: [None], [bool], [int] (unbounded), [float]
    (binary64), [str], [list], and [dict] with its insertion order. *)
Inductive pyval : Type :=
| PNone
| PBool (b : bool)
| PInt (z : Z)
| PFloat (f : float)
| PStr (s : string)
| PList (l : list pyval)
| PDict (d : list (string * pyval)).

(** The exceptions the handlers can meet; a 500 carries one.
    [InterfaceError]: a parameter of a type [sqlite3] cannot bind;
    [IntegrityError]: a [NOT NULL] or primary-key violation;
    [DatabaseError]: no rowid left for [orders]. *)
Inductive exn : Type :=
| KeyError (key : string)
| TypeError
| AttributeError
| OverflowError
| InterfaceError
| IntegrityError
| DatabaseError.

Inductive result (A : Type) : Type :=
| Ok (a : A)
| Raise (e : exn).
Arguments Ok {A} a.
Arguments Raise {A} e.

Definition rbind {A B} (r : result A) (k : A -> result B) : result B :=
  match r with
  | Ok a => k a
  | Raise e => Raise e
  end.

Declare Scope res_scope.
Delimit Scope res_scope with res.
Notation "x <- r ;; k" := (rbind r (fun x => k))
  (at level 61, r at next level, right associativity) : res_scope.
Local Open Scope res_scope.

(** *** Dictionaries keep insertion order *)

Definition dict := list (string * pyval).

Fixpoint dict_get (d : dict) (k : string) : option pyval :=
  match d with
  | [] => None
  | (k', v) :: tl => if String.eqb k' k then Some v else dict_get tl k
  end.

(** [d[k] = v]: an existing key keeps its place, a new one goes last. *)
Fixpoint dict_set (d : dict) (k : string) (v : pyval) : dict :=
  match d with
  | [] => [(k, v)]
  | (k', v') :: tl =>
      if String.eqb k' k then (k', v) :: tl else (k', v') :: dict_set tl k v
  end.

Definition dict_keys (d : dict) : list string := map fst d.

(** *** Operators *)

(** [bool(v)], the test behind [not v] and [a or b]. *)
Definition py_truth (v : pyval) : bool :=
  match v with
  | PNone => false
  | PBool b => b
  | PInt z => negb (z =? 0)
  | PFloat f => negb (PrimFloat.eqb f 0%float)
  | PStr s => negb (String.eqb s "")
  | PList l => match l with [] => false | _ => true end
  | PDict d => match d with [] => false | _ => true end
  end.

(** [needle in s] on strings. *)
Fixpoint str_contains (needle s : string) : bool :=
  String.prefix needle s
  || match s with
     | EmptyString => false
     | String _ tl => str_contains needle tl
     end.

Definition is_str (k : string) (v : pyval) : bool :=
  match v with
  | PStr s => String.eqb s k
  | _ => false
  end.

(** [k in c] for a string [k]: key of a dict, element of a list,
    substring of a string; anything else is not iterable. *)
Definition py_contains (k : string) (c : pyval) : result bool :=
  match c with
  | PDict d => Ok (match dict_get d k with Some _ => true | None => false end)
  | PList l => Ok (existsb (is_str k) l)
  | PStr s => Ok (str_contains k s)
  | _ => Raise TypeError
  end.

(** [c[k]] for a string [k]. *)
Definition py_getitem (c : pyval) (k : string) : result pyval :=
  match c with
  | PDict d => match dict_get d k with
               | Some v => Ok v
               | None => Raise (KeyError k)
               end
  | _ => Raise TypeError
  end.

(** [c.items()]. *)
Definition py_items (c : pyval) : result dict :=
  match c with
  | PDict d => Ok d
  | _ => Raise AttributeError
  end.

(** [v > 0]. *)
Definition py_gt0 (v : pyval) : result bool :=
  match v with
  | PBool b => Ok b
  | PInt z => Ok (0 <? z)
  | PFloat f => Ok (PrimFloat.ltb 0%float f)
  | _ => Raise TypeError
  end.

(** [float(z)]: round to nearest, ties to even; too large an [int] raises. *)
Definition float_of_int (z : Z) : result float :=
  let f := SF2Prim (SpecFloat.binary_normalize 53 1024 z 0 false) in
  if PrimFloat.is_infinity f then Raise OverflowError else Ok f.

Inductive number : Type :=
| NInt (z : Z)
| NFloat (f : float).

(** [bool] is a subclass of [int]. *)
Definition as_number (v : pyval) : option number :=
  match v with
  | PBool b => Some (NInt (if b then 1 else 0))
  | PInt z => Some (NInt z)
  | PFloat f => Some (NFloat f)
  | _ => None
  end.

Fixpoint repeat_list {A} (l : list A) (n : nat) : list A :=
  match n with
  | O => []
  | S n' => l ++ repeat_list l n'
  end.

Fixpoint repeat_str (s : string) (n : nat) : string :=
  match n with
  | O => ""
  | S n' => String.append s (repeat_str s n')
  end.

(** [seq * n] for a [str] or a [list]; [None] when [v] is no sequence. *)
Definition py_repeat (v : pyval) (n : Z) : option pyval :=
  match v with
  | PStr s => Some (PStr (repeat_str s (Z.to_nat n)))
  | PList l => Some (PList (repeat_list l (Z.to_nat n)))
  | _ => None
  end.

Definition or_type_error (o : option pyval) : result pyval :=
  match o with
  | Some v => Ok v
  | None => Raise TypeError
  end.

(** [a * b]. *)
Definition py_mul (a b : pyval) : result pyval :=
  match as_number a, as_number b with
  | Some (NInt x), Some (NInt y) => Ok (PInt (x * y))
  | Some (NInt x), Some (NFloat g) =>
      f <- float_of_int x ;; Ok (PFloat (PrimFloat.mul f g))
  | Some (NFloat f), Some (NInt y) =>
      g <- float_of_int y ;; Ok (PFloat (PrimFloat.mul f g))
  | Some (NFloat f), Some (NFloat g) => Ok (PFloat (PrimFloat.mul f g))
  | Some (NInt n), None => or_type_error (py_repeat b n)
  | None, Some (NInt n) => or_type_error (py_repeat a n)
  | _, _ => Raise TypeError
  end.

(** [a + b]. *)
Definition py_add (a b : pyval) : result pyval :=
  match as_number a, as_number b with
  | Some (NInt x), Some (NInt y) => Ok (PInt (x + y))
  | Some (NInt x), Some (NFloat g) =>
      f <- float_of_int x ;; Ok (PFloat (PrimFloat.add f g))
  | Some (NFloat f), Some (NInt y) =>
      g <- float_of_int y ;; Ok (PFloat (PrimFloat.add f g))
  | Some (NFloat f), Some (NFloat g) => Ok (PFloat (PrimFloat.add f g))
  | None, None =>
      match a, b with
      | PStr s, PStr t => Ok (PStr (String.append s t))
      | PList l, PList m => Ok (PList (l ++ m))
      | _, _ => Raise TypeError
      end
  | _, _ => Raise TypeError
  end.

(* ================================================================== *)
(** ** The store *)

(** The affinities of the declared column types. *)
Inductive affinity : Type :=
| TEXT
| INTEGER
| REAL.

(** What a column holds, and what [fetchall] hands back for it: NULL
    ([None]), an INTEGER ([int]), a REAL ([float]) or a TEXT ([str]).
    [STextOf f] is the TEXT the engine writes for the REAL [f] (['1.5'] for
    1.5); [SNumericOf a s] is what a column of numeric affinity [a] keeps of
    the text [s]: the number written in [s] when [s] reads as one, [s]
    itself when not.  Neither is computed here. *)
Inductive sqlval : Type :=
| SNull
| SInt (z : Z)
| SReal (f : float)
| SText (s : string)
| STextOf (f : float)
| SNumericOf (a : affinity) (s : string).

Definition int64_min : Z := -9223372036854775808.
Definition int64_max : Z := 9223372036854775807.

Definition fits_int64 (z : Z) : bool := (int64_min <=? z) && (z <=? int64_max).

(** Binding a Python value to a [?] of a statement: [None], [int] (and
    [bool]), [float] and [str] are supported; an [int] outside 64 bits
    overflows; a NaN is stored as NULL. *)
Definition bind_param (v : pyval) : result sqlval :=
  match v with
  | PNone => Ok SNull
  | PBool b => Ok (SInt (if b then 1 else 0))
  | PInt z => if fits_int64 z then Ok (SInt z) else Raise OverflowError
  | PFloat f => Ok (if PrimFloat.is_nan f then SNull else SReal f)
  | PStr s => Ok (SText s)
  | PList _ => Raise InterfaceError
  | PDict _ => Raise InterfaceError
  end.

Definition is_null (v : sqlval) : bool :=
  match v with
  | SNull => true
  | _ => false
  end.

(** *** Column affinity *)

(** An INTEGER as text: its decimal digits. *)
Definition decimal (z : Z) : string := NilZero.string_of_int (Z.to_int z).

(** A 64-bit INTEGER as a REAL: the nearest binary64, ties to even. *)
Definition real_of_int (z : Z) : float :=
  SF2Prim (SpecFloat.binary_normalize 53 1024 z 0 false).

(** The INTEGER a REAL is equal to, when there is one strictly between
    the least and the largest 64-bit integer. *)
Definition integer_of_real (f : float) : option Z :=
  match Prim2SF f with
  | SpecFloat.S754_zero _ => Some 0
  | SpecFloat.S754_finite s m e =>
      let n := if 0 <=? e then Zpos m * 2 ^ e else Zpos m / 2 ^ (- e) in
      let whole := if 0 <=? e then true else Zpos m mod 2 ^ (- e) =? 0 in
      let z := if s then - n else n in
      if whole && (int64_min <? z) && (z <? int64_max) then Some z else None
  | _ => None
  end.

(** A REAL in a [REAL] column: one that is an integer is written as that
    integer and read back as a REAL, which makes 0.0 of -0.0. *)
Definition real_of_real (f : float) : float :=
  match integer_of_real f with
  | Some z => real_of_int z
  | None => f
  end.

(** What a column of affinity [a] keeps of a bound value.  A [TEXT] column
    turns a number into text; an [INTEGER] column turns a REAL that is an
    integer into that INTEGER; a [REAL] column turns an INTEGER into a REAL;
    both numeric columns read a text as a number when it is one.  NULL is
    kept by all. *)
Definition coerce (a : affinity) (v : sqlval) : sqlval :=
  match a, v with
  | TEXT, SInt z => SText (decimal z)
  | TEXT, SReal f => STextOf f
  | INTEGER, SReal f =>
      match integer_of_real f with
      | Some z => SInt z
      | None => SReal f
      end
  | INTEGER, SText s => SNumericOf INTEGER s
  | REAL, SInt z => SReal (real_of_int z)
  | REAL, SReal f => SReal (real_of_real f)
  | REAL, SText s => SNumericOf REAL s
  | _, _ => v
  end.

(** A row of [tokens]; [token_number] is the integer primary key, and the
    only writers bind a [str] to [timestamp].  [customer_id] is declared
    [TEXT], [total_amount] [REAL]. *)
Record token_row : Type := mk_token {
  t_token_number : Z;
  t_customer_id : sqlval;
  t_timestamp : string;
  t_total_amount : sqlval
}.

(** A row of [orders]; [item_name] is always a key of the request's dict.
    [customer_id] is declared [TEXT], [quantity] [INTEGER], [price] and
    [amount] [REAL]. *)
Record order_row : Type := mk_order {
  o_id : Z;
  o_token_number : Z;
  o_customer_id : sqlval;
  o_item_name : string;
  o_quantity : sqlval;
  o_price : sqlval;
  o_amount : sqlval;
  o_timestamp : string
}.

(** The database file: both tables in rowid order and the largest rowid
    [orders] ever had (what [AUTOINCREMENT] keeps in [sqlite_sequence]). *)
Record db : Type := mk_db {
  tokens : list token_row;
  orders : list order_row;
  orders_seq : Z
}.

Definition empty_db : db := mk_db [] [] 0.

(** The row of line 43 and line 198: [(999, 'SYSTEM',
    '2000-01-01T00:00:00', 0)], the literal [0] kept as the REAL 0.0 by
    its column. *)
Definition sentinel : token_row :=
  mk_token 999 (SText "SYSTEM") "2000-01-01T00:00:00" (SReal 0).

(** *** Statements run against a connection *)

Definition M (A : Type) : Type := db -> result A * db.

Definition mret {A} (a : A) : M A := fun st => (Ok a, st).

Definition mbind {A B} (m : M A) (k : A -> M B) : M B :=
  fun st =>
    match m st with
    | (Ok a, st') => k a st'
    | (Raise e, st') => (Raise e, st')
    end.

Definition lift {A} (r : result A) : M A := fun st => (r, st).

Declare Scope db_scope.
Delimit Scope db_scope with db.
Notation "x <<- m ;; k" := (mbind m (fun x => k))
  (at level 61, m at next level, right associativity) : db_scope.
Local Open Scope db_scope.

(** [with get_db() as conn: body]: the connection commits when the body
    returns and rolls back when it raises. *)
Definition with_conn {A} (body : M A) : M A :=
  fun st =>
    match body st with
    | (Ok a, st') => (Ok a, st')
    | (Raise e, _) => (Raise e, st)
    end.

Definition has_token (n : Z) (l : list token_row) : bool :=
  existsb (fun r => t_token_number r =? n) l.

(** A new row takes its place in primary-key order. *)
Fixpoint put_token (r : token_row) (l : list token_row) : list token_row :=
  match l with
  | [] => [r]
  | x :: tl =>
      if t_token_number r <? t_token_number x then r :: l
      else x :: put_token r tl
  end.

(** [SELECT MAX(token_number) FROM tokens]: NULL on an empty table. *)
Definition max_token_of (l : list token_row) : option Z :=
  match l with
  | [] => None
  | x :: tl =>
      Some (fold_left (fun m r => Z.max m (t_token_number r)) tl
                      (t_token_number x))
  end.

Definition select_max_token : M (option Z) :=
  fun st => (Ok (max_token_of (tokens st)), st).

(** [INSERT OR IGNORE INTO tokens ... VALUES (999, 'SYSTEM', ..., 0)]. *)
Definition insert_or_ignore_sentinel (st : db) : db :=
  if has_token (t_token_number sentinel) (tokens st) then st
  else mk_db (put_token sentinel (tokens st)) (orders st) (orders_seq st).

Definition not_null (vs : list sqlval) : result unit :=
  if existsb is_null vs then Raise IntegrityError else Ok tt.

(** [INSERT INTO orders (token_number, customer_id, item_name, quantity,
    price, amount, timestamp) VALUES (?, ?, ?, ?, ?, ?, ?)]: the parameters
    are bound, the row id is taken, and each column keeps its value by its
    affinity; [item_name] and [timestamp] are [str] and stay as they are. *)
Definition insert_order (token_number : Z) (customer_id : pyval)
    (item_name : string) (quantity price amount : pyval)
    (timestamp : string) : M unit :=
  fun st =>
    match
      (tn <- bind_param (PInt token_number) ;;
       c <- bind_param customer_id ;;
       q <- bind_param quantity ;;
       p <- bind_param price ;;
       a <- bind_param amount ;;
       _ <- (if orders_seq st <? int64_max then Ok tt
             else Raise DatabaseError) ;;
       _ <- not_null [c; q; p; a] ;;
       Ok (mk_order (orders_seq st + 1) token_number (coerce TEXT c)
                    item_name (coerce INTEGER q) (coerce REAL p)
                    (coerce REAL a) timestamp))%res
    with
    | Ok row =>
        (Ok tt, mk_db (tokens st) (orders st ++ [row]) (orders_seq st + 1))
    | Raise e => (Raise e, st)
    end.

(** [INSERT INTO tokens (token_number, customer_id, timestamp,
    total_amount) VALUES (?, ?, ?, ?)]: [customer_id] is kept as text,
    [total_amount] as a REAL; a token number that is there already violates
    the primary key. *)
Definition insert_token (token_number : Z) (customer_id : pyval)
    (timestamp : string) (total_amount : pyval) : M unit :=
  fun st =>
    match
      (tn <- bind_param (PInt token_number) ;;
       c <- bind_param customer_id ;;
       t <- bind_param total_amount ;;
       _ <- not_null [c; t] ;;
       _ <- (if has_token token_number (tokens st) then Raise IntegrityError
             else Ok tt) ;;
       Ok (mk_token token_number (coerce TEXT c) timestamp
                    (coerce REAL t)))%res
    with
    | Ok row =>
        (Ok tt, mk_db (put_token row (tokens st)) (orders st) (orders_seq st))
    | Raise e => (Raise e, st)
    end.

(** *** [init_db], lines 19-43 *)

(** [CREATE TABLE IF NOT EXISTS] leaves existing tables alone; a file
    without tables is [empty_db]. *)
Definition init_db (st : db) : db := insert_or_ignore_sentinel st.

(* ================================================================== *)
(** ** [generate_token], lines 63-134 *)

Record order_entry : Type := mk_entry {
  e_item_name : string;
  e_quantity : pyval;
  e_price : pyval;
  e_amount : pyval
}.

(** The body of the 200 response, lines 121-129. *)
Record receipt : Type := mk_receipt {
  r_token_number : Z;
  r_timestamp : string;
  r_total : pyval;
  r_items : list order_entry;
  r_customer_id : pyval;
  r_formatted_time : string
}.

Inductive response : Type :=
| Resp200 (r : receipt)
| Resp400 (error : string)
| Resp500 (e : exn).

(** Line 72: [not data or 'items' not in data or 'customer_id' not in data],
    with the short circuit of [or]. *)
Definition invalid_order_data (data : pyval) : result bool :=
  if negb (py_truth data) then Ok true
  else
    has_items <- py_contains "items" data ;;
    if negb has_items then Ok true
    else
      has_customer <- py_contains "customer_id" data ;;
      Ok (negb has_customer).

(** Line 76: [{k: v for k, v in items if v['quantity'] > 0}], the dict
    under construction in [acc]. *)
Fixpoint dict_comprehension (items : dict) (acc : dict) : result dict :=
  match items with
  | [] => Ok acc
  | (k, v) :: rest =>
      quantity <- py_getitem v "quantity" ;;
      keep <- py_gt0 quantity ;;
      dict_comprehension rest (if keep then dict_set acc k v else acc)
  end.

Definition valid_items (data : pyval) : result dict :=
  items <- py_getitem data "items" ;;
  pairs <- py_items items ;;
  dict_comprehension pairs [].

(** Line 89: [(max_token or 999) + 1]. *)
Definition next_token_number (max_token : option Z) : Z :=
  match max_token with
  | None => 999 + 1
  | Some m => (if m =? 0 then 999 else m) + 1
  end.

(** Lines 95-113, one iteration per remaining item. *)
Fixpoint order_loop (data : pyval) (token_number : Z) (current_time : string)
    (items : dict) (order_entries : list order_entry) (total_amount : pyval)
    : M (list order_entry * pyval) :=
  match items with
  | [] => mret (order_entries, total_amount)
  | (item_name, details) :: rest =>
      quantity <<- lift (py_getitem details "quantity") ;;
      price <<- lift (py_getitem details "price") ;;
      amount <<- lift (py_mul quantity price) ;;
      customer_id <<- lift (py_getitem data "customer_id") ;;
      _ <<- insert_order token_number customer_id item_name quantity price
                         amount current_time ;;
      total_amount' <<- lift (py_add total_amount amount) ;;
      order_loop data token_number current_time rest
        (order_entries ++ [mk_entry item_name quantity price amount])
        total_amount'
  end.

(** Lines 84-131, the body of the [with] block. *)
Definition place_order (data : pyval) (items : dict)
    (current_time formatted_time : string) : M receipt :=
  max_token <<- select_max_token ;;
  let token_number := next_token_number max_token in
  loop <<- order_loop data token_number current_time items [] (PInt 0) ;;
  customer_id <<- lift (py_getitem data "customer_id") ;;
  _ <<- insert_token token_number customer_id current_time (snd loop) ;;
  customer_id' <<- lift (py_getitem data "customer_id") ;;
  mret (mk_receipt token_number current_time (snd loop) (fst loop)
                   customer_id' formatted_time).

(** The handler: [data] is what [request.get_json()] returned,
    [current_time] and [formatted_time] the two readings of the clock. *)
Definition generate_token (data : pyval) (current_time formatted_time : string)
    (st : db) : response * db :=
  match invalid_order_data data with
  | Raise e => (Resp500 e, st)
  | Ok true => (Resp400 "Invalid order data", st)
  | Ok false =>
      match valid_items data with
      | Raise e => (Resp500 e, st)
      | Ok [] => (Resp400 "No items in order", st)
      | Ok items =>
          match
            with_conn (place_order data items current_time formatted_time) st
          with
          | (Ok r, st') => (Resp200 r, st')
          | (Raise e, st') => (Resp500 e, st')
          end
      end
  end.

(* ================================================================== *)
(** ** [get_queue], lines 136-186 *)

(** A row of the join: four columns of [t], three of [o]. *)
Record joined : Type := mk_joined {
  j_token_number : Z;
  j_customer_id : sqlval;
  j_timestamp : string;
  j_total_amount : sqlval;
  j_item_name : string;
  j_quantity : sqlval;
  j_price : sqlval
}.

Definition join_row (t : token_row) (o : order_row) : joined :=
  mk_joined (t_token_number t) (t_customer_id t) (t_timestamp t)
            (t_total_amount t) (o_item_name o) (o_quantity o) (o_price o).

(** [FROM tokens t JOIN orders o ON t.token_number = o.token_number]: for
    each row of [t], the rows of [o] that match, both in rowid order. *)
Definition join_tokens_orders (ts : list token_row) (os : list order_row)
    : list joined :=
  flat_map
    (fun t =>
       map (join_row t)
           (filter (fun o => t_token_number t =? o_token_number o) os))
    ts.

(** [ORDER BY t.timestamp DESC] on text: a row goes in front of the first
    row that is not later than it, so rows with equal keys keep the order
    they were produced in. *)
Fixpoint insert_desc (r : joined) (l : list joined) : list joined :=
  match l with
  | [] => [r]
  | x :: tl =>
      if String.ltb (j_timestamp r) (j_timestamp x) then x :: insert_desc r tl
      else r :: l
  end.

Definition order_by_timestamp_desc (l : list joined) : list joined :=
  fold_right insert_desc [] l.

Definition select_queue (st : db) : list joined :=
  order_by_timestamp_desc (join_tokens_orders (tokens st) (orders st)).

(** The dicts of the response hold the columns as they were fetched. *)
Record queue_item : Type := mk_item {
  qi_item_name : sqlval;
  qi_quantity : sqlval;
  qi_price : sqlval
}.

Record queue_entry : Type := mk_queue_entry {
  q_token_number : Z;
  q_customer_id : sqlval;
  q_timestamp : string;
  q_total : sqlval;
  q_items : list queue_item
}.

Definition item_of_row (order : joined) : queue_item :=
  mk_item (SText (j_item_name order)) (j_quantity order) (j_price order).

(** [unique_orders[token_num]['items'].append(...)], lines 173-177. *)
Fixpoint append_item (token_num : Z) (it : queue_item)
    (unique_orders : list (Z * queue_entry)) : list (Z * queue_entry) :=
  match unique_orders with
  | [] => []
  | (k, e) :: tl =>
      if k =? token_num then
        (k, mk_queue_entry (q_token_number e) (q_customer_id e)
              (q_timestamp e) (q_total e) (q_items e ++ [it])) :: tl
      else (k, e) :: append_item token_num it tl
  end.

Definition in_keys (token_num : Z) (unique_orders : list (Z * queue_entry))
    : bool :=
  existsb (fun ke => fst ke =? token_num) unique_orders.

(** One iteration of the loop of lines 158-177. *)
Definition group_step (unique_orders : list (Z * queue_entry))
    (order : joined) : list (Z * queue_entry) :=
  let token_num := j_token_number order in
  if negb (in_keys token_num unique_orders) then
    unique_orders
      ++ [(token_num,
           mk_queue_entry token_num (j_customer_id order)
             (j_timestamp order) (j_total_amount order)
             [item_of_row order])]
  else append_item token_num (item_of_row order) unique_orders.

(** The value of ['queue'] in the response: [list(unique_orders.values())]. *)
Definition get_queue (st : db) : list queue_entry :=
  map snd (fold_left group_step (select_queue st) []).

(* ================================================================== *)
(** ** [clear_orders], lines 188-201 *)

Definition delete_from_orders : M unit :=
  fun st => (Ok tt, mk_db (tokens st) [] (orders_seq st)).

Definition delete_from_tokens : M unit :=
  fun st => (Ok tt, mk_db [] (orders st) (orders_seq st)).

Definition reinsert_sentinel : M unit :=
  fun st => (Ok tt, insert_or_ignore_sentinel st).

Inductive clear_response : Type :=
| Cleared (message : string)
| ClearFailed (e : exn).

Definition clear_orders (st : db) : clear_response * db :=
  match
    with_conn (_ <<- delete_from_orders ;;
               _ <<- delete_from_tokens ;;
               reinsert_sentinel) st
  with
  | (Ok _, st') => (Cleared "All orders cleared", st')
  | (Raise e, st') => (ClearFailed e, st')
  end.

(* ================================================================== *)
(** ** Runs of the service *)

Inductive request : Type :=
| PlaceOrder (data : pyval) (current_time formatted_time : string)
| GetQueue
| ClearQueue
| Restart.

(** The state after a request; [Restart] is the [init_db] of a new process
    on the same file. *)
Definition step (st : db) (rq : request) : db :=
  match rq with
  | PlaceOrder data now fmt => snd (generate_token data now fmt st)
  | GetQueue => st
  | ClearQueue => snd (clear_orders st)
  | Restart => init_db st
  end.

Definition fresh_db : db := init_db empty_db.

Definition run (st : db) (rqs : list request) : db := fold_left step rqs st.

Definition reachable (st : db) : Prop := exists rqs, st = run fresh_db rqs.

(** The token number of a response, when it is a receipt. *)
Definition assigned (rs : response) : list Z :=
  match rs with
  | Resp200 r => [r_token_number r]
  | _ => []
  end.

(** The token numbers handed out by a series of [generate_token] calls. *)
Fixpoint place_all (st : db) (calls : list (pyval * string * string))
    : list Z :=
  match calls with
  | [] => []
  | (data, now, fmt) :: rest =>
      let (rs, st') := generate_token data now fmt st in
      assigned rs ++ place_all st' rest
  end.

(** The token numbers handed out since the last clear (or since the start)
    over a run of requests, oldest first. *)
Fixpoint assigned_since_clear (st : db) (rqs : list request) (acc : list Z)
    : list Z :=
  match rqs with
  | [] => acc
  | rq :: rest =>
      assigned_since_clear (step st rq) rest
        match rq with
        | PlaceOrder data now fmt =>
            acc ++ assigned (fst (generate_token data now fmt st))
        | ClearQueue => []
        | _ => acc
        end
  end.

(** All token numbers handed out over a run of requests, oldest first. *)
Fixpoint assigned_ever (st : db) (rqs : list request) : list Z :=
  match rqs with
  | [] => []
  | rq :: rest =>
      match rq with
      | PlaceOrder data now fmt =>
          assigned (fst (generate_token data now fmt st))
      | _ => []
      end ++ assigned_ever (step st rq) rest
  end.

(** [n] consecutive integers from [a]. *)
Fixpoint zseq (a : Z) (n : nat) : list Z :=
  match n with
  | O => []
  | S n' => a :: zseq (a + 1) n'
  end.

(* ================================================================== *)
(** ** Vocabulary of the statements *)

(** [total_amount += amount] over the entries, left to right. *)
Fixpoint add_amounts (total : pyval) (es : list order_entry) : result pyval :=
  match es with
  | [] => Ok total
  | e :: tl => t <- py_add total (e_amount e) ;; add_amounts t tl
  end.

(** A column of affinity [a] keeps [s] of the value [v] bound to it: [v]
    can be bound, is not NULL, and [s] is what the affinity makes of it. *)
Definition stored (a : affinity) (v : pyval) (s : sqlval) : Prop :=
  exists b, bind_param v = Ok b /\ is_null b = false /\ s = coerce a b.

(** A Python number as a REAL column keeps it: a [float] as it is (0.0
    for -0.0), an [int] (or [bool]) as the nearest binary64. *)
Definition real_of (v : pyval) : option float :=
  match as_number v with
  | Some (NInt z) => Some (real_of_int z)
  | Some (NFloat f) => Some (real_of_real f)
  | None => None
  end.

(** One pass of the loop body: item [kv] of the filtered dict gave entry [e]
    of the response and row [row] of [orders]. *)
Record line (data : pyval) (token_number : Z) (current_time : string)
    (kv : string * pyval) (e : order_entry) (row : order_row) : Prop :=
  mk_line {
    line_name : e_item_name e = fst kv;
    line_quantity : py_getitem (snd kv) "quantity" = Ok (e_quantity e);
    line_price : py_getitem (snd kv) "price" = Ok (e_price e);
    line_amount : py_mul (e_quantity e) (e_price e) = Ok (e_amount e);
    line_row_token : o_token_number row = token_number;
    line_row_name : o_item_name row = fst kv;
    line_row_time : o_timestamp row = current_time;
    line_row_customer :
      exists c, py_getitem data "customer_id" = Ok c
                /\ stored TEXT c (o_customer_id row);
    line_row_quantity : stored INTEGER (e_quantity e) (o_quantity row);
    line_row_price : stored REAL (e_price e) (o_price row);
    line_row_amount : stored REAL (e_amount e) (o_amount row)
  }.

Inductive lines (data : pyval) (token_number : Z) (current_time : string)
    : dict -> list order_entry -> list order_row -> Prop :=
| lines_nil : lines data token_number current_time [] [] []
| lines_cons kv e row items es rows :
    line data token_number current_time kv e row ->
    lines data token_number current_time items es rows ->
    lines data token_number current_time (kv :: items) (e :: es) (row :: rows).

(** The receipt and the new state of a call that returned 200. *)
Inductive placed (data : pyval) (current_time formatted_time : string)
    (st : db) : receipt -> db -> Prop :=
| Placed items es rows total customer_id c t seq' :
    invalid_order_data data = Ok false ->
    valid_items data = Ok items ->
    items <> [] ->
    let token_number := next_token_number (max_token_of (tokens st)) in
    lines data token_number current_time items es rows ->
    add_amounts (PInt 0) es = Ok total ->
    py_getitem data "customer_id" = Ok customer_id ->
    stored TEXT customer_id c ->
    stored REAL total t ->
    fits_int64 token_number = true ->
    has_token token_number (tokens st) = false ->
    placed data current_time formatted_time st
      (mk_receipt token_number current_time total es customer_id
                  formatted_time)
      (mk_db (put_token (mk_token token_number c current_time t) (tokens st))
             (orders st ++ rows) seq').

(** *** The [tokens] table: maximum, insertion, the invariant of a run *)

(** What holds of the file throughout a run. *)
Record invariant (st : db) : Prop := mk_invariant {
  inv_key : NoDup (map t_token_number (tokens st));
  inv_sentinel : In sentinel (tokens st);
  inv_floor : Forall (fun t => 999 <= t_token_number t) (tokens st);
  inv_orders :
    Forall (fun o => 1000 <= o_token_number o
                     /\ In (o_token_number o)
                           (map t_token_number (tokens st)))
           (orders st)
}.

(** *** The order of text timestamps *)

(** [a] is not earlier than [b]. *)
Definition not_earlier (a b : string) : Prop := String.ltb a b = false.

(** *** [ORDER BY]: sorted, a permutation, stable *)

Definition desc (x y : joined) : Prop :=
  not_earlier (j_timestamp x) (j_timestamp y).

(** *** The join *)

Definition of_token (k : Z) (j : joined) : bool := j_token_number j =? k.

Definition order_of_token (k : Z) (o : order_row) : bool :=
  o_token_number o =? k.

(** *** Grouping the rows by token *)

Definition with_item (e : queue_entry) (it : queue_item) : queue_entry :=
  mk_queue_entry (q_token_number e) (q_customer_id e) (q_timestamp e)
                 (q_total e) (q_items e ++ [it]).

(** The first four columns of [r] are the head of entry [e]. *)
Definition head_of (e : queue_entry) (r : joined) : Prop :=
  q_token_number e = j_token_number r
  /\ q_customer_id e = j_customer_id r
  /\ q_timestamp e = j_timestamp r
  /\ q_total e = j_total_amount r.

Definition stamps (u : list (Z * queue_entry)) : list string :=
  map (fun ke => q_timestamp (snd ke)) u.

(** What the dict holds once the rows [rows] have gone through the loop. *)
Record grouped (rows : list joined) (u : list (Z * queue_entry)) : Prop :=
  mk_grouped {
    g_keys : NoDup (map fst u);
    g_rows : forall r, In r rows -> In (j_token_number r) (map fst u);
    g_entry :
      forall k e,
        In (k, e) u ->
        q_token_number e = k
        /\ q_items e = map item_of_row (filter (of_token k) rows)
        /\ exists r, In r rows /\ j_token_number r = k /\ head_of e r
  }.

(** *** The queue of a state of a run *)

(** An order line as the queue shows it. *)
Definition item_of_order (o : order_row) : queue_item :=
  mk_item (SText (o_item_name o)) (o_quantity o) (o_price o).

(** Entry [e] is token row [t] with the order lines [os]. *)
Definition entry_of (e : queue_entry) (t : token_row) (os : list order_row)
    : Prop :=
  q_token_number e = t_token_number t
  /\ q_customer_id e = t_customer_id t
  /\ q_timestamp e = t_timestamp t
  /\ q_total e = t_total_amount t
  /\ q_items e = map item_of_order os.

Definition newest_first (a b : queue_entry) : Prop :=
  not_earlier (q_timestamp a) (q_timestamp b).

(** An entry of the response next to the item the queue shows for it: the
    name, and quantity and price as their columns keep them. *)
Definition shown_as (e : order_entry) (it : queue_item) : Prop :=
  qi_item_name it = SText (e_item_name e)
  /\ stored INTEGER (e_quantity e) (qi_quantity it)
  /\ stored REAL (e_price e) (qi_price it)
  /\ option_map SReal (real_of (e_price e)) = Some (qi_price it).

(** *** The filter of line 76 *)

(** The test of the comprehension on one item, when it evaluates. *)
Definition positive (kv : string * pyval) : Prop :=
  exists q, py_getitem (snd kv) "quantity" = Ok q /\ py_gt0 q = Ok true.

Definition not_positive (kv : string * pyval) : Prop :=
  exists q, py_getitem (snd kv) "quantity" = Ok q /\ py_gt0 q = Ok false.

(** The same test as a boolean: [false] also when it raises. *)
Definition keeps (kv : string * pyval) : bool :=
  match py_getitem (snd kv) "quantity" with
  | Ok q => match py_gt0 q with
            | Ok b => b
            | Raise _ => false
            end
  | Raise _ => false
  end.

(** *** Sample requests *)

Definition line_item (quantity price : pyval) : pyval :=
  PDict [("quantity", quantity); ("price", price)].

Definition order_of (customer_id : pyval) (items : dict) : pyval :=
  PDict [("customer_id", customer_id); ("items", PDict items)].

(** Two teas at 10 and no coffee. *)
Definition tea_order : pyval :=
  order_of (PStr "c1")
    [("tea", line_item (PInt 2) (PInt 10));
     ("coffee", line_item (PInt 0) (PInt 20))].

(** A price with a fraction. *)
Definition dosa_order : pyval :=
  order_of (PStr "c2")
    [("dosa", line_item (PInt 3) (PFloat 45.5));
     ("vada", line_item (PInt 1) (PInt 20))].

Definition empty_customer_order : pyval :=
  order_of (PStr "") [("tea", line_item (PInt 1) (PInt 10))].

Definition negative_price_order : pyval :=
  order_of (PStr "c1") [("tea", line_item (PInt 1) (PInt (-5)))].

(** The one item has no price, and a quantity of zero. *)
Definition unpriced_nothing_order : pyval :=
  order_of (PStr "c1") [("tea", PDict [("quantity", PInt 0)])].

(** The second item has no price, and a quantity of one. *)
Definition unpriced_order : pyval :=
  order_of (PStr "c1")
    [("tea", line_item (PInt 1) (PInt 10));
     ("coffee", PDict [("quantity", PInt 1)])].

Definition morning : string := "2024-01-01T10:00:00".
Definition morning_text : string := "01 Jan 2024, 10:00 AM".
Definition noon : string := "2024-01-01T12:00:00.250000".
Definition noon_text : string := "01 Jan 2024, 12:00 PM".

(** The state after the tea order on a new file. *)
Definition after_tea : db :=
  run fresh_db [PlaceOrder tea_order morning morning_text].

(** *** Rejections and failures *)

(** The cases of a 400: a body that is falsy, a body without ["items"], a
    body without ["customer_id"], or items that all evaluate and of which
    none has a quantity above zero. *)
Definition rejected (data : pyval) : Prop :=
  py_truth data = false
  \/ py_contains "items" data = Ok false
  \/ py_contains "customer_id" data = Ok false
  \/ exists items,
       py_getitem data "items" = Ok (PDict items)
       /\ Forall not_positive items.

(** *** Token numbers across clears *)

Definition tea_clear_tea : list request :=
  [PlaceOrder tea_order morning morning_text;
   ClearQueue;
   PlaceOrder tea_order noon noon_text].

(** *** Amounts, totals and what is persisted *)

(** Entry [e] of the response is item [kv] of the request, with the amount
    of line 98. *)
Definition entry_for (kv : string * pyval) (e : order_entry) : Prop :=
  e_item_name e = fst kv
  /\ py_getitem (snd kv) "quantity" = Ok (e_quantity e)
  /\ py_getitem (snd kv) "price" = Ok (e_price e)
  /\ py_mul (e_quantity e) (e_price e) = Ok (e_amount e).

(** Row [o] holds the values of entry [e] as its columns keep them; the
    amount is a REAL. *)
Definition persisted_as (e : order_entry) (o : order_row) : Prop :=
  o_item_name o = e_item_name e
  /\ stored INTEGER (e_quantity e) (o_quantity o)
  /\ stored REAL (e_price e) (o_price o)
  /\ stored REAL (e_amount e) (o_amount o)
  /\ option_map SReal (real_of (e_amount e)) = Some (o_amount o).

(** Three teas at 2^53 + 1 each: a price and an amount that no binary64
    equals. *)
Definition big_price_order : pyval :=
  order_of (PStr "c1")
    [("tea", line_item (PInt 3) (PInt 9007199254740993))].

(** *** Prices *)

(** What the [INTEGER] column holds of a number: an INTEGER, or a REAL
    that is no integer strictly within 64 bits. *)
Definition is_integer_kept (v : sqlval) : bool :=
  match v with
  | SInt _ => true
  | SReal f => match integer_of_real f with
               | Some _ => false
               | None => true
               end
  | _ => false
  end.

Definition is_real (v : sqlval) : bool :=
  match v with
  | SReal _ => true
  | _ => false
  end.

Definition is_text (v : sqlval) : bool :=
  match v with
  | SText _ => true
  | STextOf _ => true
  | _ => false
  end.

Definition numeric (v : pyval) : Prop := as_number v <> None.

(** Row [o] holds the price that item [kv] of the request carries, as a
    REAL. *)
Definition price_of (kv : string * pyval) (o : order_row) : Prop :=
  o_item_name o = fst kv
  /\ exists p, py_getitem (snd kv) "price" = Ok p
               /\ stored REAL p (o_price o)
               /\ option_map SReal (real_of p) = Some (o_price o).

(** *** Malformed items *)

(** What makes the handler raise on the items of a body that passed the
    test of line 72: items that are no dict; an item whose quantity cannot
    be read (the item is no dict, or has no ["quantity"]); an item of a
    dict with a quantity above zero and no price that can be read. *)
Definition malformed (items : pyval) : Prop :=
  (forall d, items <> PDict d)
  \/ (exists d k v,
        items = PDict d /\ In (k, v) d
        /\ forall q, py_getitem v "quantity" <> Ok q)
  \/ (exists d k v,
        items = PDict d /\ NoDup (dict_keys d) /\ In (k, v) d
        /\ positive (k, v)
        /\ forall p, py_getitem v "price" <> Ok p).

(** *** The store of a run: lines, tokens and what the columns hold *)

(** Order line [o] belongs to token row [t]. *)
Definition line_of (t : token_row) (o : order_row) : Prop :=
  o_customer_id o = t_customer_id t
  /\ o_timestamp o = t_timestamp t.

(** The columns of an order line hold what their declared type says: text
    for the customer, an INTEGER for the quantity unless it is a REAL that
    is no integer, a REAL for price and amount. *)
Definition order_as_declared (o : order_row) : bool :=
  is_text (o_customer_id o) && is_integer_kept (o_quantity o)
  && is_real (o_price o) && is_real (o_amount o).

Definition token_as_declared (t : token_row) : bool :=
  is_text (t_customer_id t) && is_real (t_total_amount t).

(** Token row [t] with its order lines in [st]. *)
Definition token_lines (st : db) (t : token_row) : list order_row :=
  filter (order_of_token (t_token_number t)) (orders st).

Record consistent (st : db) : Prop := mk_consistent {
  c_lines : forall t, In t (tokens st) -> Forall (line_of t) (token_lines st t);
  c_nonempty :
    forall t, In t (tokens st) -> t = sentinel \/ token_lines st t <> [];
  c_orders : Forall (fun o => order_as_declared o = true) (orders st);
  c_tokens : Forall (fun t => token_as_declared t = true) (tokens st)
}.

(** *** The queue of a run, against the store and the history *)

(** An item of the queue shows a text name, the quantity as the [INTEGER]
    column holds it and a REAL as price. *)
Definition item_as_declared (it : queue_item) : bool :=
  is_text (qi_item_name it) && is_integer_kept (qi_quantity it)
  && is_real (qi_price it).

(** An order with numbers where text is expected and the other way round:
    customer 5, two (as a float) teas at 10. *)
Definition numeric_customer_order : pyval :=
  order_of (PInt 5) [("tea", line_item (PFloat 2) (PInt 10))].

(** *** More sample requests and typed requests *)

Definition null_customer_order : pyval :=
  order_of PNone [("tea", line_item (PInt 1) (PInt 10))].

(** The body a client sends for integer quantities and prices:
    [(name, (quantity, price))] per item. *)
Definition int_item (x : string * (Z * Z)) : string * pyval :=
  (fst x, line_item (PInt (fst (snd x))) (PInt (snd (snd x)))).

Definition int_order (customer : string) (l : list (string * (Z * Z)))
    : pyval :=
  order_of (PStr customer) (map int_item l).

(** The items with a quantity above zero. *)
Definition kept (l : list (string * (Z * Z))) : list (string * (Z * Z)) :=
  filter (fun x => 0 <? fst (snd x)) l.

Definition int_entry (x : string * (Z * Z)) : order_entry :=
  mk_entry (fst x) (PInt (fst (snd x))) (PInt (snd (snd x)))
           (PInt (fst (snd x) * snd (snd x))).

(** The sum of quantity times price. *)
Definition int_total (l : list (string * (Z * Z))) : Z :=
  fold_left (fun s x => s + fst (snd x) * snd (snd x)) l 0.

(** Quantity, price and amount of an item fit a 64-bit column. *)
Definition storable (x : string * (Z * Z)) : Prop :=
  fits_int64 (fst (snd x)) = true
  /\ fits_int64 (snd (snd x)) = true
  /\ fits_int64 (fst (snd x) * snd (snd x)) = true.

(** A series of such orders: customer, items and the two readings of the
    clock of each call. *)
Definition int_call (x : string * list (string * (Z * Z)) * string * string)
    : pyval * string * string :=
  let '(customer, l, now, fmt) := x in (int_order customer l, now, fmt).

Definition items_of (x : string * list (string * (Z * Z)) * string * string)
    : list (string * (Z * Z)) :=
  let '(_, l, _, _) := x in l.

(** The order can be taken: no item name twice, an item with a quantity
    above zero, and kept items and total within 64 bits. *)
Definition acceptable (l : list (string * (Z * Z))) : Prop :=
  NoDup (map fst l)
  /\ kept l <> []
  /\ Forall storable (kept l)
  /\ fits_int64 (int_total (kept l)) = true.

(** The order lines a series of orders adds. *)
Fixpoint line_count (cs : list (string * list (string * (Z * Z))
                                * string * string)) : nat :=
  match cs with
  | [] => O
  | x :: rest => (List.length (kept (items_of x)) + line_count rest)%nat
  end.

Definition all_acceptable
    (cs : list (string * list (string * (Z * Z)) * string * string)) : Prop :=
  Forall (fun x => acceptable (items_of x)) cs.

(** The file has room for the orders [cs] when its largest token number is
    [m]: row ids and token numbers stay within 64 bits. *)
Definition room (st : db) (m : Z)
    (cs : list (string * list (string * (Z * Z)) * string * string)) : Prop :=
  orders_seq st + Z.of_nat (line_count cs) <= int64_max
  /\ m + Z.of_nat (List.length cs) <= int64_max.

(** Two orders in a row. *)
Definition two_calls
    : list (string * list (string * (Z * Z)) * string * string) :=
  [("c1", [("tea", (2, 10)); ("coffee", (0, 20))], morning, morning_text);
   ("c2", [("dosa", (3, 45)); ("vada", (1, 20))], noon, noon_text)].

(** *** Row ids of [orders] *)

(** Row ids are in table order and not above the counter. *)
Definition ids_ok (st : db) : Prop :=
  StronglySorted Z.lt (map o_id (orders st))
  /\ Forall (fun o => o_id o <= orders_seq st) (orders st).

(** *** A clock that advances *)

(** [a] is strictly earlier than [b], as text. *)
Definition earlier (a b : string) : Prop := String.ltb a b = true.

(** The first reading of the clock of each PlaceOrder of a run. *)
Fixpoint order_times (rqs : list request) : list string :=
  match rqs with
  | [] => []
  | PlaceOrder _ now _ :: rest => now :: order_times rest
  | _ :: rest => order_times rest
  end.

(** Tokens of orders are in the order of their timestamps. *)
Definition chronological (st : db) : Prop :=
  forall t1 t2,
    In t1 (tokens st) -> In t2 (tokens st) ->
    1000 <= t_token_number t1 ->
    t_token_number t1 < t_token_number t2 ->
    earlier (t_timestamp t1) (t_timestamp t2).

(** Every order of [st] is earlier than [s]. *)
Definition all_before (st : db) (s : string) : Prop :=
  Forall (fun t => 1000 <= t_token_number t -> earlier (t_timestamp t) s)
         (tokens st).

Definition noon_later : string := "2024-01-01T12:00:01".

(** *** The test of line 76 on one item *)

(** [v['quantity'] > 0]. *)
Definition quantity_test (v : pyval) : result bool :=
  q <- py_getitem v "quantity" ;; py_gt0 q.

Definition number_item_order : pyval :=
  order_of (PStr "c1")
    [("tea", line_item (PInt 1) (PInt 10)); ("coffee", PInt 5);
     ("vada", PNone)].

(* ================================================================== *)
(** ** What a successful [generate_token] has done *)

Ltac inv H := inversion H; subst; clear H.

(** Case analysis on the next call of a monadic chain. *)
Ltac run_res :=
  match goal with
  | H : context [rbind ?r _] |- _ =>
      let E := fresh "E" in destruct r eqn:E; simpl in H
  | H : context [match ?r with Ok _ => _ | Raise _ => _ end] |- _ =>
      let E := fresh "E" in destruct r eqn:E; simpl in H
  | H : context [if ?b then _ else _] |- _ =>
      let E := fresh "E" in destruct b eqn:E; simpl in H
  end; try discriminate.

Lemma is_null_of_list (c q p a : sqlval) :
  existsb is_null [c; q; p; a] = false ->
  is_null c = false /\ is_null q = false /\ is_null p = false
  /\ is_null a = false.
Proof.
  simpl. destruct (is_null c), (is_null q), (is_null p), (is_null a);
    simpl; intros H; try discriminate; auto.
Qed.

Lemma stored_bound a v b :
  bind_param v = Ok b -> is_null b = false -> stored a v (coerce a b).
Proof. intros B N. exists b. auto. Qed.

Lemma insert_order_ok token_number customer_id item_name quantity price
    amount timestamp st u st' :
  insert_order token_number customer_id item_name quantity price amount
               timestamp st = (Ok u, st') ->
  exists c q p a,
    stored TEXT customer_id c /\ stored INTEGER quantity q
    /\ stored REAL price p /\ stored REAL amount a
    /\ st' = mk_db (tokens st)
               (orders st
                ++ [mk_order (orders_seq st + 1) token_number c item_name
                             q p a timestamp])
               (orders_seq st + 1).
Proof.
  unfold insert_order, not_null. intros H.
  destruct (bind_param (PInt token_number)) as [tn|]; try discriminate.
  destruct (bind_param customer_id) as [c|] eqn:Bc; try discriminate.
  destruct (bind_param quantity) as [q|] eqn:Bq; try discriminate.
  destruct (bind_param price) as [p|] eqn:Bp; try discriminate.
  destruct (bind_param amount) as [a|] eqn:Ba; try discriminate.
  cbn [rbind] in H.
  destruct (orders_seq st <? int64_max); cbn [rbind] in H;
    try discriminate.
  destruct (existsb is_null [c; q; p; a]) eqn:Nn; cbn [rbind] in H;
    try discriminate.
  apply is_null_of_list in Nn. destruct Nn as (Nc & Nq & Np & Na).
  inv H.
  exists (coerce TEXT c), (coerce INTEGER q), (coerce REAL p),
         (coerce REAL a).
  repeat split; try (now apply stored_bound).
Qed.

Lemma insert_token_ok token_number customer_id timestamp total_amount st u
    st' :
  insert_token token_number customer_id timestamp total_amount st
  = (Ok u, st') ->
  exists c t,
    stored TEXT customer_id c /\ stored REAL total_amount t
    /\ fits_int64 token_number = true
    /\ has_token token_number (tokens st) = false
    /\ st' = mk_db (put_token (mk_token token_number c timestamp t)
                              (tokens st))
                   (orders st) (orders_seq st).
Proof.
  unfold insert_token, not_null. intros H.
  destruct (bind_param (PInt token_number)) as [tn|] eqn:Bn;
    try discriminate.
  destruct (bind_param customer_id) as [c|] eqn:Bc; try discriminate.
  destruct (bind_param total_amount) as [t|] eqn:Bt; try discriminate.
  cbn [rbind] in H.
  destruct (existsb is_null [c; t]) eqn:Nn; cbn [rbind] in H;
    try discriminate.
  destruct (has_token token_number (tokens st)) eqn:Ht; cbn [rbind] in H;
    try discriminate.
  inv H.
  simpl in Bn. destruct (fits_int64 token_number); try discriminate.
  simpl in Nn. destruct (is_null c) eqn:Nc; try discriminate.
  destruct (is_null t) eqn:Nt; try discriminate.
  exists (coerce TEXT c), (coerce REAL t).
  repeat split; try (now apply stored_bound).
Qed.

Lemma add_amounts_app total es1 es2 :
  add_amounts total (es1 ++ es2)
  = (t <- add_amounts total es1 ;; add_amounts t es2).
Proof.
  revert total. induction es1 as [|e es1 IH]; intros total; simpl.
  - reflexivity.
  - destruct (py_add total (e_amount e)); simpl; auto.
Qed.

Lemma order_loop_ok data tn now items :
  forall acc total st es total' st',
    order_loop data tn now items acc total st = (Ok (es, total'), st') ->
    exists new_es rows,
      es = acc ++ new_es
      /\ lines data tn now items new_es rows
      /\ add_amounts total new_es = Ok total'
      /\ tokens st' = tokens st
      /\ orders st' = orders st ++ rows.
Proof.
  induction items as [|[k v] items IH]; intros acc total st es total' st' H.
  - inv H. exists [], []. rewrite !app_nil_r. repeat split; constructor.
  - simpl in H. unfold mbind, lift in H.
    destruct (py_getitem v "quantity") as [q|] eqn:Eq; try discriminate.
    destruct (py_getitem v "price") as [p|] eqn:Ep; try discriminate.
    destruct (py_mul q p) as [a|] eqn:Ea; try discriminate.
    destruct (py_getitem data "customer_id") as [c|] eqn:Ec; try discriminate.
    destruct (insert_order tn c k q p a now st) as [[u|] st1] eqn:Ei;
      try discriminate.
    destruct (py_add total a) as [t1|] eqn:Et; try discriminate.
    apply insert_order_ok in Ei.
    destruct Ei as (c' & q' & p' & a' & Bc & Bq & Bp & Ba & ->).
    apply IH in H. destruct H as (es2 & rows & -> & L & S & T & O).
    simpl in T, O.
    exists (mk_entry k q p a :: es2),
           (mk_order (orders_seq st + 1) tn c' k q' p' a' now :: rows).
    repeat split.
    + now rewrite <- app_assoc.
    + constructor; [|exact L]. constructor; simpl; eauto.
    + simpl. rewrite Et. exact S.
    + exact T.
    + now rewrite O, <- app_assoc.
Qed.

Lemma generate_token_ok data now fmt st r st' :
  generate_token data now fmt st = (Resp200 r, st') ->
  placed data now fmt st r st'.
Proof.
  unfold generate_token. intros H.
  destruct (invalid_order_data data) as [[|]|] eqn:Ev; try discriminate.
  destruct (valid_items data) as [[|kv items]|] eqn:Ei; try discriminate.
  unfold with_conn, place_order, mbind, select_max_token, lift, mret in H.
  set (tn := next_token_number (max_token_of (tokens st))) in *.
  destruct (order_loop data tn now (kv :: items) [] (PInt 0) st)
    as [[[es total]|] st1] eqn:El; try discriminate.
  apply order_loop_ok in El.
  destruct El as (es' & rows & E & L & S & T & O). simpl in E. subst es'.
  simpl in H.
  destruct (py_getitem data "customer_id") as [c|] eqn:Ec; try discriminate.
  destruct (insert_token tn c now total st1) as [[u|] st2] eqn:Et;
    try discriminate.
  apply insert_token_ok in Et.
  destruct Et as (c' & t' & Bc & Bt & Ef & Ht & ->).
  inv H. rewrite O, T in *.
  eapply Placed; eauto. discriminate.
Qed.

(** Any other response leaves the file as it was. *)
Lemma generate_token_rollback data now fmt st rs st' :
  generate_token data now fmt st = (rs, st') ->
  (forall r, rs <> Resp200 r) ->
  st' = st.
Proof.
  unfold generate_token, with_conn. intros H N.
  destruct (invalid_order_data data) as [[|]|]; try (now inv H).
  destruct (valid_items data) as [[|kv items]|]; try (now inv H).
  destruct (place_order data (kv :: items) now fmt st) as [[r|e] st1];
    inv H; [now elim (N r)|reflexivity].
Qed.

(* ================================================================== *)
(** ** Numbers, and what the columns keep of them *)

Lemma py_add_numeric a b t :
  numeric a -> py_add a b = Ok t -> numeric b /\ numeric t.
Proof.
  unfold numeric, py_add. intros Ha H.
  destruct (as_number a) as [[x|f]|] eqn:Ea; [| |now elim Ha];
    destruct (as_number b) as [[y|g]|] eqn:Eb; try discriminate.
  - inv H. split; discriminate.
  - destruct (float_of_int x); try discriminate. inv H. split; discriminate.
  - destruct (float_of_int y); try discriminate. inv H. split; discriminate.
  - inv H. split; discriminate.
Qed.

Lemma add_amounts_numeric es :
  forall total t,
    numeric total -> add_amounts total es = Ok t ->
    Forall (fun e => numeric (e_amount e)) es /\ numeric t.
Proof.
  induction es as [|e es IH]; simpl; intros total t N H.
  - inv H. split; [constructor | exact N].
  - destruct (py_add total (e_amount e)) as [t1|] eqn:E; try discriminate.
    destruct (@py_add_numeric _ _ _ N E) as [Ne N1]. simpl in H.
    destruct (IH _ _ N1 H) as [Hes Nt]. split; [now constructor | exact Nt].
Qed.

Lemma py_mul_numeric q p a : py_mul q p = Ok a -> numeric a -> numeric p.
Proof.
  unfold numeric, py_mul. intros H Ha Hp. rewrite Hp in H.
  destruct (as_number q) as [[n|f]|]; try discriminate.
  destruct p; simpl in *; try discriminate; inv H; now apply Ha.
Qed.

Lemma gt0_numeric q : py_gt0 q = Ok true -> numeric q.
Proof. destruct q; simpl; try discriminate; intros _; discriminate. Qed.

Lemma stored_functional a v s1 s2 : stored a v s1 -> stored a v s2 -> s1 = s2.
Proof. intros (b1 & B1 & _ & ->) (b2 & B2 & _ & ->). congruence. Qed.

(** A number bound to a [REAL] column is kept as a REAL: a [float] as it
    is (0.0 for -0.0), an [int] as the nearest binary64. *)
Lemma stored_real v s :
  numeric v -> stored REAL v s -> option_map SReal (real_of v) = Some s.
Proof.
  unfold numeric, real_of. intros N (b & B & Nn & ->).
  destruct v; cbn [as_number bind_param option_map] in *;
    try (now elim N).
  - inv B. reflexivity.
  - destruct (fits_int64 z); inv B. reflexivity.
  - inv B. destruct (PrimFloat.is_nan f); [discriminate | reflexivity].
Qed.

Lemma stored_real_is_real v s :
  numeric v -> stored REAL v s -> is_real s = true.
Proof.
  intros N S. apply stored_real in S; auto.
  destruct (real_of v) as [f|]; cbn [option_map] in S; inv S. reflexivity.
Qed.

(** A number bound to the [INTEGER] column is kept as an INTEGER: a
    [float] that is an integer as that INTEGER, any other as it is. *)
Lemma stored_integer_is_kept v s :
  numeric v -> stored INTEGER v s -> is_integer_kept s = true.
Proof.
  unfold numeric. intros N (b & B & Nn & ->).
  destruct v; cbn [as_number bind_param] in *; try (now elim N).
  - inv B. reflexivity.
  - destruct (fits_int64 z); inv B. reflexivity.
  - inv B. destruct (PrimFloat.is_nan f); [discriminate|].
    cbn [coerce]. destruct (integer_of_real f) eqn:E; cbn [is_integer_kept].
    + reflexivity.
    + now rewrite E.
Qed.

(** Whatever is kept in a [TEXT] column is text. *)
Lemma stored_text_is_text v s : stored TEXT v s -> is_text s = true.
Proof.
  intros (b & B & Nn & ->).
  destruct v; cbn [bind_param] in B; try discriminate.
  - inv B. discriminate.
  - inv B. reflexivity.
  - destruct (fits_int64 z); inv B. reflexivity.
  - inv B. destruct (PrimFloat.is_nan f); [discriminate | reflexivity].
  - inv B. reflexivity.
Qed.

Lemma lines_entries data tn now items es rows :
  lines data tn now items es rows -> Forall2 entry_for items es.
Proof.
  induction 1 as [|kv e row items es rows L _ IH]; constructor; auto.
  destruct L. unfold entry_for. auto.
Qed.

Lemma lines_persisted data tn now items es rows :
  lines data tn now items es rows ->
  Forall (fun e => numeric (e_amount e)) es ->
  Forall2 persisted_as es rows.
Proof.
  induction 1 as [|kv e row items es rows L _ IH]; intros N; constructor.
  - apply Forall_cons_iff in N. destruct N as [Na _].
    destruct L. unfold persisted_as. repeat split; auto.
    + congruence.
    + now apply stored_real.
  - apply Forall_cons_iff in N. destruct N as [_ N]. now apply IH.
Qed.

(** The rows a successful call writes hold what their columns declare. *)
Lemma lines_declared data tn now items es rows :
  lines data tn now items es rows ->
  Forall positive items ->
  Forall (fun e => numeric (e_amount e)) es ->
  Forall (fun o => order_as_declared o = true) rows.
Proof.
  induction 1 as [|kv e row items es rows L _ IH]; intros P N; constructor.
  - apply Forall_cons_iff in P. destruct P as [(q & Eq & Eg) _].
    apply Forall_cons_iff in N. destruct N as [Na _].
    destruct L as [_ Hq Hp Hmul _ _ _ (c & _ & Sc) Sq Sp Sa].
    assert (q = e_quantity e) by congruence. subst q.
    unfold order_as_declared.
    rewrite (stored_text_is_text Sc).
    rewrite (stored_integer_is_kept (gt0_numeric _ Eg) Sq).
    rewrite (stored_real_is_real (py_mul_numeric _ _ Hmul Na) Sp).
    rewrite (stored_real_is_real Na Sa). reflexivity.
  - apply Forall_cons_iff in P. destruct P as [_ P].
    apply Forall_cons_iff in N. destruct N as [_ N]. now apply IH.
Qed.

(** The rows a successful call writes, against its token row. *)
Lemma lines_line_of data tn now items es rows customer c t :
  lines data tn now items es rows ->
  py_getitem data "customer_id" = Ok customer ->
  stored TEXT customer c ->
  Forall (line_of (mk_token tn c now t)) rows.
Proof.
  induction 1 as [|kv e row items es rows L _ IH]; intros Hc Sc;
    constructor; auto.
  destruct L as [_ _ _ _ _ _ Htime (c' & Ec & Sc') _ _ _].
  unfold line_of. simpl. split; [|exact Htime].
  assert (c' = customer) by congruence. subst c'.
  eapply stored_functional; eauto.
Qed.

(* ================================================================== *)
(** ** The [tokens] table: maximum, insertion, the invariant of a run *)

Lemma fold_max_spec tl :
  forall init,
    let m := fold_left (fun m r => Z.max m (t_token_number r)) tl init in
    init <= m
    /\ Forall (fun r => t_token_number r <= m) tl
    /\ (m = init \/ In m (map t_token_number tl)).
Proof.
  induction tl as [|x tl IH]; intros init; simpl.
  - repeat split; auto; lia.
  - specialize (IH (Z.max init (t_token_number x))).
    destruct IH as (Hle & Hall & Hin). repeat split.
    + lia.
    + constructor; [lia | exact Hall].
    + destruct Hin as [Hin|Hin]; [|now right; right].
      destruct (Z.max_spec init (t_token_number x)) as [[_ E]|[_ E]];
        rewrite E in *; [right; left; now symmetry | now left].
Qed.

Lemma max_token_of_spec l m :
  max_token_of l = Some m <->
  In m (map t_token_number l) /\ Forall (fun r => t_token_number r <= m) l.
Proof.
  destruct l as [|x tl]; simpl.
  - split; [discriminate | intros [[] _]].
  - pose proof (fold_max_spec tl (t_token_number x)) as (Hle & Hall & Hin).
    simpl in *. split.
    + intros E. inv E. split.
      * destruct Hin as [->|Hin]; auto.
      * constructor; assumption.
    + intros [Hm Hub]. f_equal. inv Hub.
      apply Z.le_antisymm.
      * destruct Hin as [->|Hin]; [assumption|].
        apply in_map_iff in Hin. destruct Hin as (y & <- & Hy).
        rewrite Forall_forall in H2. now apply H2.
      * destruct Hm as [<-|Hm]; [assumption|].
        apply in_map_iff in Hm. destruct Hm as (y & <- & Hy).
        rewrite Forall_forall in Hall. now apply Hall.
Qed.

Lemma put_token_perm r l : Permutation (put_token r l) (r :: l).
Proof.
  induction l as [|x tl IH]; simpl.
  - reflexivity.
  - destruct (t_token_number r <? t_token_number x).
    + reflexivity.
    + rewrite IH. apply perm_swap.
Qed.

Lemma put_token_in r l x : In x (put_token r l) <-> x = r \/ In x l.
Proof.
  split; intros H.
  - apply (Permutation_in _ (put_token_perm r l)) in H.
    destruct H; auto.
  - apply (Permutation_in _ (Permutation_sym (put_token_perm r l))).
    destruct H; [left|right]; auto.
Qed.

Lemma has_token_true n l :
  has_token n l = true <-> In n (map t_token_number l).
Proof.
  unfold has_token. rewrite existsb_exists, in_map_iff. split.
  - intros (x & Hx & E). apply Z.eqb_eq in E. eauto.
  - intros (x & E & Hx). exists x. split; auto. now apply Z.eqb_eq.
Qed.

Lemma has_token_false n l :
  has_token n l = false <-> ~ In n (map t_token_number l).
Proof.
  rewrite <- has_token_true. destruct (has_token n l); split; intros H;
    try discriminate; auto. now elim H.
Qed.

Lemma fresh_db_eq : fresh_db = mk_db [sentinel] [] 0.
Proof. reflexivity. Qed.

Lemma invariant_anchor tokens_ seq :
  tokens_ = [sentinel] -> invariant (mk_db tokens_ [] seq).
Proof.
  intros ->. constructor; unfold tokens, orders.
  - constructor; [intros []|constructor].
  - now left.
  - constructor; [unfold sentinel, t_token_number; lia|constructor].
  - constructor.
Qed.

(** In a state of a run the maximum exists and is at least 999, so the
    [or 999] of line 89 never fires and the next number is the maximum plus
    one, at least 1000 and not yet in the table. *)
Lemma invariant_max st :
  invariant st ->
  exists m,
    max_token_of (tokens st) = Some m /\ 999 <= m
    /\ next_token_number (max_token_of (tokens st)) = m + 1
    /\ ~ In (m + 1) (map t_token_number (tokens st)).
Proof.
  intros I.
  destruct (max_token_of (tokens st)) as [m|] eqn:E.
  - pose proof E as E'. apply max_token_of_spec in E'.
    destruct E' as [Hin Hub].
    assert (999 <= m).
    { pose proof (inv_sentinel I) as Hs.
      rewrite Forall_forall in Hub. apply Hub in Hs. exact Hs. }
    exists m. repeat split; auto.
    + simpl. destruct (m =? 0) eqn:Z0; [apply Z.eqb_eq in Z0; lia|reflexivity].
    + intros Hc. apply in_map_iff in Hc. destruct Hc as (x & Ex & Hx).
      rewrite Forall_forall in Hub. apply Hub in Hx. lia.
  - pose proof (inv_sentinel I) as Hs.
    destruct (tokens st); [destruct Hs | discriminate].
Qed.

Lemma lines_rows_token data tn now items es rows :
  lines data tn now items es rows ->
  Forall (fun o => o_token_number o = tn) rows.
Proof.
  induction 1; constructor; auto. now destruct H.
Qed.

Lemma placed_max data now fmt st r st' :
  invariant st ->
  placed data now fmt st r st' ->
  exists m,
    max_token_of (tokens st) = Some m /\ 999 <= m
    /\ r_token_number r = m + 1
    /\ max_token_of (tokens st') = Some (m + 1).
Proof.
  intros I P. destruct (invariant_max I) as (m & Em & Hm & En & Hfresh).
  inv P. subst token_number. simpl. rewrite En in *.
  exists m. repeat split; auto.
  apply max_token_of_spec. split.
  - apply in_map_iff. eexists. split; [|apply put_token_in; left; reflexivity].
    reflexivity.
  - apply Forall_forall. intros x Hx. apply put_token_in in Hx.
    destruct Hx as [->|Hx]; simpl; [lia|].
    apply max_token_of_spec in Em. destruct Em as [_ Hub].
    rewrite Forall_forall in Hub. apply Hub in Hx. lia.
Qed.

Lemma placed_invariant data now fmt st r st' :
  invariant st ->
  placed data now fmt st r st' ->
  invariant st'.
Proof.
  intros I P. destruct (invariant_max I) as (m & Em & Hm & En & Hfresh).
  inv P. subst token_number. rewrite En in *.
  set (row := mk_token (m + 1) c now t) in *.
  assert (Hmap : Permutation (map t_token_number (put_token row (tokens st)))
                             ((m + 1) :: map t_token_number (tokens st))).
  { apply (Permutation_map t_token_number (put_token_perm row (tokens st))). }
  constructor; simpl.
  - eapply Permutation_NoDup; [apply Permutation_sym, Hmap|].
    constructor; [exact Hfresh | apply (inv_key I)].
  - apply put_token_in. right. apply (inv_sentinel I).
  - eapply Permutation_Forall;
      [apply Permutation_sym, put_token_perm|].
    constructor; [simpl; lia | apply (inv_floor I)].
  - apply Forall_app. split.
    + eapply Forall_impl; [|apply (inv_orders I)].
      intros o [Ho Hi]. split; auto.
      eapply Permutation_in; [apply Permutation_sym, Hmap|]. now right.
    + eapply Forall_impl; [|eapply lines_rows_token; eauto].
      intros o ->. split; [lia|].
      eapply Permutation_in; [apply Permutation_sym, Hmap|]. now left.
Qed.

Lemma clear_orders_eq st :
  clear_orders st
  = (Cleared "All orders cleared", mk_db [sentinel] [] (orders_seq st)).
Proof. reflexivity. Qed.

Lemma init_db_invariant st : invariant st -> init_db st = st.
Proof.
  intros I. unfold init_db, insert_or_ignore_sentinel.
  replace (has_token (t_token_number sentinel) (tokens st)) with true;
    [reflexivity|].
  symmetry. apply has_token_true. apply in_map. apply (inv_sentinel I).
Qed.

Lemma step_invariant st rq : invariant st -> invariant (step st rq).
Proof.
  intros I. destruct rq as [data now fmt| | |]; simpl.
  - destruct (generate_token data now fmt st) as [rs st'] eqn:E.
    destruct rs as [r|msg|e].
    + apply generate_token_ok in E. simpl. eapply placed_invariant; eauto.
    + apply generate_token_rollback in E; [|discriminate]. now subst.
    + apply generate_token_rollback in E; [|discriminate]. now subst.
  - exact I.
  - now apply invariant_anchor.
  - now rewrite init_db_invariant.
Qed.

Lemma run_invariant rqs : forall st, invariant st -> invariant (run st rqs).
Proof.
  induction rqs as [|rq rqs IH]; intros st I; simpl; auto.
  apply IH. now apply step_invariant.
Qed.

Lemma reachable_invariant st : reachable st -> invariant st.
Proof.
  intros [rqs ->]. apply run_invariant. now apply invariant_anchor.
Qed.

(* ================================================================== *)
(** ** The filter of line 76 *)

Lemma dict_set_not_nil d k v : dict_set d k v <> [].
Proof.
  destruct d as [|[k' v'] d]; simpl; [discriminate|].
  destruct (String.eqb k' k); discriminate.
Qed.

Lemma dict_set_new d k v :
  ~ In k (dict_keys d) -> dict_set d k v = d ++ [(k, v)].
Proof.
  induction d as [|[k' v'] d IH]; simpl; intros H; auto.
  destruct (String.eqb k' k) eqn:E.
  - apply String.eqb_eq in E. tauto.
  - rewrite IH; tauto.
Qed.

Lemma dict_comprehension_keeps_acc items :
  forall acc d,
    dict_comprehension items acc = Ok d -> acc <> [] -> d <> [].
Proof.
  induction items as [|[k v] items IH]; simpl; intros acc d H N.
  - now inv H.
  - destruct (py_getitem v "quantity") as [q|]; try discriminate.
    simpl in H. destruct (py_gt0 q) as [[|]|]; try discriminate; simpl in H.
    + eapply IH; eauto. apply dict_set_not_nil.
    + eapply IH; eauto.
Qed.

(** Nothing survives exactly when every item evaluates and none is kept. *)
Lemma dict_comprehension_nil items :
  dict_comprehension items [] = Ok [] <-> Forall not_positive items.
Proof.
  induction items as [|[k v] items IH]; simpl.
  - split; auto.
  - split.
    + intros H.
      destruct (py_getitem v "quantity") as [q|] eqn:Eq; try discriminate.
      simpl in H.
      destruct (py_gt0 q) as [[|]|] eqn:Eg; try discriminate; simpl in H.
      * exfalso. eapply dict_comprehension_keeps_acc; eauto. discriminate.
      * constructor; [|now apply IH]. exists q. auto.
    + intros H. inv H. destruct H2 as (q & Eq & Eg). simpl in Eq.
      rewrite Eq. simpl. rewrite Eg. simpl. now apply IH.
Qed.

(** On a dict (no key twice) the comprehension is a filter. *)
Lemma dict_comprehension_filter items :
  forall acc d,
    NoDup (dict_keys items) ->
    (forall k, In k (dict_keys items) -> ~ In k (dict_keys acc)) ->
    dict_comprehension items acc = Ok d ->
    d = acc ++ filter keeps items.
Proof.
  induction items as [|[k v] items IH]; simpl; intros acc d N D H.
  - inv H. now rewrite app_nil_r.
  - apply NoDup_cons_iff in N. destruct N as [Nk N].
    unfold keeps at 1. simpl.
    destruct (py_getitem v "quantity") as [q|]; try discriminate.
    simpl in H. destruct (py_gt0 q) as [[|]|]; try discriminate; simpl in H.
    + rewrite dict_set_new in H by (apply D; now left).
      apply IH in H; auto.
      * now rewrite <- app_assoc in H.
      * intros k' Hk' Hin. unfold dict_keys in Hin.
        rewrite map_app in Hin. apply in_app_or in Hin.
        destruct Hin as [Hin|[<-|[]]].
        -- apply (D k'); auto.
        -- now apply Nk.
    + apply IH in H; auto.
Qed.

Lemma keeps_positive kv : keeps kv = true <-> positive kv.
Proof.
  unfold keeps, positive. split.
  - destruct (py_getitem (snd kv) "quantity") as [q|]; try discriminate.
    destruct (py_gt0 q) as [[|]|] eqn:Eg; try discriminate. eauto.
  - intros (q & -> & ->). reflexivity.
Qed.

(** An item whose quantity does not evaluate makes the comprehension raise. *)
Lemma dict_comprehension_raises items k v :
  In (k, v) items ->
  (forall q, py_getitem v "quantity" <> Ok q) ->
  forall acc, exists e, dict_comprehension items acc = Raise e.
Proof.
  induction items as [|[k' v'] items IH]; simpl; intros Hin Hq acc;
    [destruct Hin|].
  destruct Hin as [Hin|Hin].
  - inv Hin. destruct (py_getitem v "quantity") as [q|e] eqn:E.
    + now elim (Hq q).
    + simpl. eauto.
  - destruct (py_getitem v' "quantity") as [q|e]; simpl; eauto.
    destruct (py_gt0 q) as [b|e]; simpl; eauto.
Qed.

(** An item without a price makes the loop raise, at that item or before. *)
Lemma order_loop_raises data tn now items k v :
  In (k, v) items ->
  (forall p, py_getitem v "price" <> Ok p) ->
  forall acc total st,
    exists e st1, order_loop data tn now items acc total st = (Raise e, st1).
Proof.
  induction items as [|[k' v'] items IH]; simpl; intros Hin Hp acc total st;
    [destruct Hin|].
  unfold mbind, lift.
  destruct (py_getitem v' "quantity") as [q|e] eqn:Eq; eauto.
  destruct (py_getitem v' "price") as [p|e] eqn:Ep.
  - destruct Hin as [Hin|Hin]; [inv Hin; now elim (Hp p)|].
    destruct (py_mul q p) as [a|e]; eauto.
    destruct (py_getitem data "customer_id") as [c|e]; eauto.
    destruct (insert_order tn c k' q p a now st) as [[u|e] st1]; eauto.
    destruct (py_add total a) as [t|e]; eauto.
  - eauto.
Qed.

Lemma lines_names data tn now items es rows :
  lines data tn now items es rows ->
  map e_item_name es = dict_keys items
  /\ map o_item_name rows = dict_keys items.
Proof.
  induction 1 as [|kv e row items es rows L _ [IH1 IH2]]; simpl; auto.
  destruct L. split; congruence.
Qed.

Lemma lines_positive data tn now items es rows :
  lines data tn now items es rows ->
  Forall positive items ->
  Forall (fun e => py_gt0 (e_quantity e) = Ok true) es.
Proof.
  induction 1 as [|kv e row items es rows L _ IH]; intros P; constructor;
    inv P; auto.
  destruct L. destruct H1 as (q & Eq & Eg). congruence.
Qed.

Lemma dict_set_in d k v x :
  In x (dict_set d k v) -> x = (k, v) \/ In x d.
Proof.
  induction d as [|[k' v'] d IH]; simpl.
  - intros [<-|[]]. now left.
  - destruct (String.eqb k' k) eqn:E; simpl.
    + intros [<-|H]; auto. apply String.eqb_eq in E. subst. now left.
    + intros [<-|H]; auto. destruct (IH H); auto.
Qed.

(** Whatever survives the comprehension has a quantity above zero. *)
Lemma dict_comprehension_positive items :
  forall acc d,
    dict_comprehension items acc = Ok d ->
    Forall positive acc -> Forall positive d.
Proof.
  induction items as [|[k v] items IH]; simpl; intros acc d H P.
  - now inv H.
  - destruct (py_getitem v "quantity") as [q|] eqn:Eq; try discriminate.
    simpl in H.
    destruct (py_gt0 q) as [[|]|] eqn:Eg; try discriminate; simpl in H.
    + eapply IH; eauto. apply Forall_forall. intros x Hx.
      apply dict_set_in in Hx. destruct Hx as [->|Hx].
      * exists q. auto.
      * rewrite Forall_forall in P. auto.
    + eapply IH; eauto.
Qed.

Lemma valid_items_positive data items :
  valid_items data = Ok items -> Forall positive items.
Proof.
  unfold valid_items. intros H.
  destruct (py_getitem data "items") as [its|]; try discriminate.
  simpl in H. destruct (py_items its) as [pairs|]; try discriminate.
  simpl in H. eapply dict_comprehension_positive; eauto.
Qed.

Lemma valid_items_filter data items pairs :
  py_getitem data "items" = Ok (PDict pairs) ->
  NoDup (dict_keys pairs) ->
  valid_items data = Ok items ->
  items = filter keeps pairs.
Proof.
  unfold valid_items. intros -> N H. simpl in H.
  apply dict_comprehension_filter in H; auto.
Qed.

Lemma dict_key_unique (d : dict) k v v' :
  NoDup (dict_keys d) -> In (k, v) d -> In (k, v') d -> v = v'.
Proof.
  induction d as [|[k0 v0] d IH]; simpl; intros N H H'; [destruct H|].
  inv N. destruct H as [H|H], H' as [H'|H'].
  - congruence.
  - inv H. elim H2. change k with (fst (k, v')). now apply in_map.
  - inv H'. elim H2. change k with (fst (k, v)). now apply in_map.
  - eauto.
Qed.

(* ================================================================== *)
(** ** Orders of integer quantities and prices *)

Lemma mbind_ok {A B} (m : M A) (k : A -> M B) st a st1 :
  m st = (Ok a, st1) -> mbind m k st = k a st1.
Proof. unfold mbind. now intros ->. Qed.

Lemma mbind_lift {A B} (r : result A) (k : A -> M B) st a :
  r = Ok a -> mbind (lift r) k st = k a st.
Proof. intros ->. reflexivity. Qed.

Lemma int_item_quantity x :
  py_getitem (snd (int_item x)) "quantity" = Ok (PInt (fst (snd x))).
Proof. reflexivity. Qed.

Lemma int_item_price x :
  py_getitem (snd (int_item x)) "price" = Ok (PInt (snd (snd x))).
Proof. reflexivity. Qed.

Lemma int_order_customer c l :
  py_getitem (int_order c l) "customer_id" = Ok (PStr c).
Proof. reflexivity. Qed.

Lemma int_order_items c l :
  py_getitem (int_order c l) "items" = Ok (PDict (map int_item l)).
Proof. reflexivity. Qed.

Lemma int_order_present c l : invalid_order_data (int_order c l) = Ok false.
Proof. reflexivity. Qed.

Lemma int_items_keys l : dict_keys (map int_item l) = map fst l.
Proof. unfold dict_keys. rewrite map_map. reflexivity. Qed.

Lemma dict_comprehension_int l :
  forall acc,
    NoDup (map fst l) ->
    (forall k, In k (map fst l) -> ~ In k (dict_keys acc)) ->
    dict_comprehension (map int_item l) acc
    = Ok (acc ++ map int_item (kept l)).
Proof.
  induction l as [|x l IH]; intros acc N D.
  - simpl. now rewrite app_nil_r.
  - apply NoDup_cons_iff in N. destruct N as [Nx N].
    change (map int_item (x :: l)) with (int_item x :: map int_item l).
    destruct (int_item x) as [k v] eqn:Ex.
    assert (Ek : k = fst x) by (unfold int_item in Ex; now inv Ex).
    assert (Eq : py_getitem v "quantity" = Ok (PInt (fst (snd x)))).
    { replace v with (snd (int_item x)) by now rewrite Ex.
      apply int_item_quantity. }
    cbn [dict_comprehension]. rewrite Eq. simpl rbind.
    unfold kept. cbn [filter]. fold (kept l).
    destruct (0 <? fst (snd x)).
    + rewrite dict_set_new by (subst k; apply D; now left).
      rewrite IH; auto.
      * rewrite <- app_assoc. simpl. now rewrite Ex.
      * intros k' Hk' Hin. unfold dict_keys in Hin.
        rewrite map_app in Hin. apply in_app_or in Hin.
        destruct Hin as [Hin|[E|[]]].
        -- apply (D k'); [now right | exact Hin].
        -- simpl in E. subst k k'. now apply Nx.
    + apply IH; auto. intros k' Hk'. apply D. now right.
Qed.

Lemma fold_total_shift l :
  forall a,
    fold_left (fun s x => s + fst (snd x) * snd (snd x)) l a
    = a + int_total l.
Proof.
  unfold int_total. induction l as [|x l IH]; intros a; simpl.
  - lia.
  - rewrite IH, (IH (fst (snd x) * snd (snd x))). lia.
Qed.

(** The row an integer item is kept as: the price and the amount as
    REAL. *)
Lemma insert_order_int tn c k q p now st :
  fits_int64 tn = true -> fits_int64 q = true -> fits_int64 p = true ->
  fits_int64 (q * p) = true ->
  (orders_seq st <? int64_max) = true ->
  insert_order tn (PStr c) k (PInt q) (PInt p) (PInt (q * p)) now st
  = (Ok tt,
     mk_db (tokens st)
       (orders st
        ++ [mk_order (orders_seq st + 1) tn (SText c) k (SInt q)
              (SReal (real_of_int p)) (SReal (real_of_int (q * p))) now])
       (orders_seq st + 1)).
Proof.
  intros Ht Fq Fp Fa Hlt. unfold insert_order, not_null. simpl bind_param.
  rewrite Ht, Fq, Fp, Fa. cbn [rbind]. rewrite Hlt. reflexivity.
Qed.

(** The loop over integer items that fit goes through. *)
Lemma order_loop_int c all tn now l :
  fits_int64 tn = true ->
  Forall storable l ->
  forall acc total st,
    orders_seq st + Z.of_nat (List.length l) <= int64_max ->
    exists st',
      order_loop (int_order c all) tn now (map int_item l) acc (PInt total) st
      = (Ok (acc ++ map int_entry l, PInt (total + int_total l)), st')
      /\ tokens st' = tokens st
      /\ orders_seq st' = orders_seq st + Z.of_nat (List.length l).
Proof.
  intros Ht. induction 1 as [|x l Sx _ IH]; intros acc total st Hseq.
  - exists st. simpl. unfold mret, int_total. simpl.
    rewrite app_nil_r, !Z.add_0_r. auto.
  - destruct Sx as (Fq & Fp & Fa).
    change (map int_item (x :: l)) with (int_item x :: map int_item l).
    destruct (int_item x) as [k v] eqn:Ex.
    assert (Ek : k = fst x) by (unfold int_item in Ex; now inv Ex).
    assert (Eq : py_getitem v "quantity" = Ok (PInt (fst (snd x)))).
    { replace v with (snd (int_item x)) by now rewrite Ex.
      apply int_item_quantity. }
    assert (Ep : py_getitem v "price" = Ok (PInt (snd (snd x)))).
    { replace v with (snd (int_item x)) by now rewrite Ex.
      apply int_item_price. }
    cbn [order_loop]. unfold mbind at 1, lift at 1. rewrite Eq.
    unfold mbind at 1, lift at 1. rewrite Ep.
    unfold mbind at 1, lift at 1. cbn [py_mul as_number].
    unfold mbind at 1, lift at 1. rewrite int_order_customer.
    unfold mbind at 1.
    assert (Hlt : (orders_seq st <? int64_max) = true).
    { apply Z.ltb_lt. simpl List.length in Hseq. lia. }
    rewrite (@insert_order_int tn c k _ _ now st Ht Fq Fp Fa Hlt).
    unfold mbind at 1, lift at 1. cbn [py_add as_number].
    match goal with
    | |- context [order_loop _ _ _ _ ?acc' (PInt ?tot') ?st1] =>
        destruct (IH acc' tot' st1) as (st' & El & Htok & Hs)
    end.
    + simpl orders_seq. simpl List.length in Hseq. lia.
    + exists st'. split; [|split; [exact Htok|]].
      * rewrite El, <- app_assoc. simpl. subst k.
        unfold int_total at 2. simpl fold_left.
        rewrite fold_total_shift, Z.add_assoc. reflexivity.
      * rewrite Hs. simpl orders_seq. simpl List.length. lia.
Qed.

(** Such an order gets the next token number on any state that has the
    sentinel and a key on token numbers; the counter of row ids advances by
    the number of kept items. *)
Lemma int_order_placed st customer l now fmt :
  invariant st ->
  NoDup (map fst l) ->
  kept l <> [] ->
  Forall storable (kept l) ->
  fits_int64 (int_total (kept l)) = true ->
  orders_seq st + Z.of_nat (List.length (kept l)) <= int64_max ->
  fits_int64 (next_token_number (max_token_of (tokens st))) = true ->
  exists st',
    generate_token (int_order customer l) now fmt st
    = (Resp200 (mk_receipt (next_token_number (max_token_of (tokens st)))
                  now (PInt (int_total (kept l)))
                  (map int_entry (kept l)) (PStr customer) fmt),
       st')
    /\ orders_seq st'
       = orders_seq st + Z.of_nat (List.length (kept l)).
Proof.
  intros I N Hk Hs Ftot Hseq Ftn.
  set (tn := next_token_number (max_token_of (tokens st))) in *.
  destruct (invariant_max I) as (m & Em & Hm & En & Hfresh).
  unfold generate_token, valid_items.
  rewrite int_order_present, int_order_items. simpl rbind.
  rewrite dict_comprehension_int; auto. simpl app.
  destruct (kept l) as [|x kl] eqn:Ekl; [now elim Hk|].
  rewrite <- Ekl in *.
  destruct (map int_item (kept l)) as [|kv items] eqn:Emap;
    [rewrite Ekl in Emap; discriminate|].
  rewrite <- Emap.
  destruct (@order_loop_int customer l tn now (kept l) Ftn Hs [] 0 st Hseq)
    as (st1 & El & Htok & Hs1).
  simpl app in El. rewrite Z.add_0_l in El.
  assert (Ei : insert_token tn (PStr customer) now
                 (PInt (int_total (kept l))) st1
               = (Ok tt,
                  mk_db (put_token
                           (mk_token tn (SText customer) now
                              (SReal (real_of_int (int_total (kept l)))))
                           (tokens st1))
                        (orders st1) (orders_seq st1))).
  { unfold insert_token, not_null. simpl bind_param.
    rewrite Ftn, Ftot. cbn [rbind]. simpl existsb. cbn [rbind]. rewrite Htok.
    replace (has_token tn (tokens st)) with false; [reflexivity|].
    symmetry. apply has_token_false. unfold tn. now rewrite En. }
  unfold with_conn, place_order.
  erewrite mbind_ok by reflexivity.
  fold tn. erewrite mbind_ok by exact El. simpl fst. simpl snd.
  erewrite mbind_lift by apply int_order_customer.
  erewrite mbind_ok by exact Ei.
  erewrite mbind_lift by apply int_order_customer.
  unfold mret. eexists. split; [reflexivity|]. exact Hs1.
Qed.

(* ================================================================== *)
(** ** Token numbers over a run *)

Lemma zseq_length a n : List.length (zseq a n) = n.
Proof. revert a. induction n; intros a; simpl; auto. Qed.

Lemma zseq_lower a n : Forall (fun x => a <= x) (zseq a n).
Proof.
  revert a. induction n as [|n IH]; intros a; simpl; constructor.
  - lia.
  - eapply Forall_impl; [|apply IH]. simpl. intros; lia.
Qed.

Lemma zseq_sorted a n : StronglySorted Z.lt (zseq a n).
Proof.
  revert a. induction n as [|n IH]; intros a; simpl; constructor.
  - apply IH.
  - eapply Forall_impl; [|apply zseq_lower]. simpl. intros; lia.
Qed.

Lemma sorted_lt_nodup l : StronglySorted Z.lt l -> NoDup l.
Proof.
  induction 1 as [|x l Hs IH Hx]; constructor; auto.
  intros Hin. rewrite Forall_forall in Hx. apply Hx in Hin. lia.
Qed.

Lemma zseq_snoc a n : zseq a n ++ [a + Z.of_nat n] = zseq a (S n).
Proof.
  revert a. induction n as [|n IH]; intros a.
  - simpl. now rewrite Z.add_0_r.
  - change (a :: (zseq (a + 1) n ++ [a + Z.of_nat (S n)])
            = a :: zseq (a + 1) (S n)).
    rewrite <- IH. do 3 f_equal. lia.
Qed.

(** From a state of a run whose largest token number is [m], the calls
    that succeed get [m + 1], [m + 2], ... in this order. *)
Lemma place_all_consecutive calls :
  forall st m,
    invariant st ->
    max_token_of (tokens st) = Some m ->
    place_all st calls = zseq (m + 1) (List.length (place_all st calls)).
Proof.
  induction calls as [|[[data now] fmt] calls IH]; intros st m I Em; simpl.
  - reflexivity.
  - destruct (generate_token data now fmt st) as [rs st'] eqn:E.
    destruct rs as [r|msg|e]; simpl.
    + apply generate_token_ok in E.
      destruct (placed_max I E) as (m' & Em' & _ & Er & Em'').
      rewrite Em in Em'. inv Em'. rewrite Er. f_equal.
      apply IH; [eapply placed_invariant; eauto | exact Em''].
    + apply generate_token_rollback in E; [|discriminate]. subst. now apply IH.
    + apply generate_token_rollback in E; [|discriminate]. subst. now apply IH.
Qed.

Lemma max_token_anchor : max_token_of [sentinel] = Some 999.
Proof. reflexivity. Qed.

(** A series of acceptable integer orders all get a token: the numbers
    after the table's maximum, one after the other. *)
Lemma place_all_int cs :
  forall st m,
    invariant st ->
    max_token_of (tokens st) = Some m ->
    all_acceptable cs ->
    room st m cs ->
    place_all st (map int_call cs) = zseq (m + 1) (List.length cs).
Proof.
  unfold all_acceptable, room.
  induction cs as [|[[[c l] now] fmt] cs IH]; intros st m I Em A [Hseq Hm].
  - reflexivity.
  - apply Forall_cons_iff in A. destruct A as [(N & Hk & Hs & Ft) A].
    simpl in N, Hk, Hs, Ft.
    destruct (invariant_max I) as (m' & Em' & Hge & En & _).
    assert (m' = m) by congruence. subst m'.
    simpl line_count in Hseq. simpl List.length in Hm.
    destruct (@int_order_placed st c l now fmt I N Hk Hs Ft)
      as (st' & E & Hs').
    + lia.
    + rewrite En. unfold fits_int64. apply andb_true_intro.
      split; apply Z.leb_le; unfold int64_min; lia.
    + cbn [map int_call place_all]. rewrite E. cbn [assigned r_token_number].
      rewrite En. simpl. f_equal.
      apply generate_token_ok in E.
      destruct (placed_max I E) as (m2 & Em2 & _ & _ & Em'').
      assert (m2 = m) by congruence. subst m2.
      apply IH; auto.
      * eapply placed_invariant; eauto.
      * split; lia.
Qed.

(** C1. Whatever requests came before, the token numbers that a series of
    PlaceOrder calls hands out are strictly increasing; on a new file and
    after a clear they are 1000, 1001, ... in this order, so the first is
    1000; every number a call assigns is the largest [token_number] of
    the [tokens] table (sentinel included) plus one.  And such series
    exist, of any length: orders of integer quantities and prices that can
    be stored all get a token, the [N] calls of the series the [N] numbers
    after the maximum (after 999 on a new file and after a clear). *)
Theorem generate_token_numbers_increase :
  forall (rqs : list request) (calls : list (pyval * string * string))
         (st0 : db),
    let st := run fresh_db rqs in
    StronglySorted Z.lt (place_all st calls)
    /\ place_all fresh_db calls
       = zseq 1000 (List.length (place_all fresh_db calls))
    /\ place_all (snd (clear_orders st0)) calls
       = zseq 1000 (List.length (place_all (snd (clear_orders st0)) calls))
    /\ (forall data now fmt,
          Forall (fun n => max_token_of (tokens st) = Some (n - 1))
                 (assigned (fst (generate_token data now fmt st))))
    /\ (exists m,
          max_token_of (tokens st) = Some m
          /\ forall cs,
               all_acceptable cs -> room st m cs ->
               place_all st (map int_call cs)
               = zseq (m + 1) (List.length cs))
    /\ (forall cs,
          all_acceptable cs -> room fresh_db 999 cs ->
          place_all fresh_db (map int_call cs) = zseq 1000 (List.length cs))
    /\ (forall cs,
          all_acceptable cs -> room (snd (clear_orders st0)) 999 cs ->
          place_all (snd (clear_orders st0)) (map int_call cs)
          = zseq 1000 (List.length cs)).
Proof.
  intros rqs calls st0 st.
  assert (I : invariant st) by (apply reachable_invariant; now exists rqs).
  destruct (invariant_max I) as (m & Em & _).
  split; [|split; [|split; [|split; [|split; [|split]]]]].
  - rewrite (place_all_consecutive calls I Em). apply zseq_sorted.
  - apply (place_all_consecutive calls (m := 999));
      [now apply invariant_anchor | reflexivity].
  - rewrite clear_orders_eq.
    apply (place_all_consecutive calls (m := 999));
      [now apply invariant_anchor | reflexivity].
  - intros data now fmt.
    destruct (generate_token data now fmt st) as [rs st'] eqn:E.
    destruct rs as [r|msg|e]; simpl; constructor; [|constructor].
    apply generate_token_ok in E.
    destruct (placed_max I E) as (m' & Em' & _ & Er & _).
    rewrite Er, Em'. f_equal. lia.
  - exists m. split; [exact Em|]. intros cs A R.
    now apply place_all_int.
  - intros cs A R.
    apply (@place_all_int cs fresh_db 999); auto.
    now apply invariant_anchor.
  - intros cs A R. rewrite clear_orders_eq in *.
    apply (@place_all_int cs _ 999); auto.
    now apply invariant_anchor.
Qed.

Lemma generate_token_numbers_increase_witness :
  place_all fresh_db (map int_call two_calls) = [1000; 1001].
Proof.
  apply (proj1 (proj2 (proj2 (proj2 (proj2 (proj2
           (generate_token_numbers_increase [] [] fresh_db))))))
           two_calls).
  - repeat constructor; simpl; intuition discriminate.
  - split; vm_compute; discriminate.
Defined.

(** Over a run, the numbers handed out since the last clear are the first
    ones from 1000, and the table's maximum is the last of them. *)
Lemma assigned_since_clear_spec rqs :
  forall st acc,
    invariant st ->
    acc = zseq 1000 (List.length acc) ->
    max_token_of (tokens st) = Some (999 + Z.of_nat (List.length acc)) ->
    let ts := assigned_since_clear st rqs acc in
    ts = zseq 1000 (List.length ts).
Proof.
  induction rqs as [|rq rqs IH]; intros st acc I Ea Em; simpl.
  - exact Ea.
  - destruct rq as [data now fmt| | |]; simpl.
    + destruct (generate_token data now fmt st) as [rs st'] eqn:E.
      destruct rs as [r|msg|e]; simpl.
      * apply generate_token_ok in E.
        destruct (placed_max I E) as (m' & Em' & _ & Er & Em'').
        assert (m' = 999 + Z.of_nat (List.length acc)) by congruence.
        subst m'.
        assert (El : List.length (acc ++ [r_token_number r])
                     = S (List.length acc))
          by (rewrite length_app; simpl; lia).
        apply IH.
        -- eapply placed_invariant; eauto.
        -- rewrite El, <- zseq_snoc, <- Ea.
           replace (r_token_number r)
             with (1000 + Z.of_nat (List.length acc)) by lia.
           reflexivity.
        -- rewrite El, Em''. f_equal. lia.
      * apply generate_token_rollback in E; [|discriminate]. subst.
        rewrite app_nil_r. now apply IH.
      * apply generate_token_rollback in E; [|discriminate]. subst.
        rewrite app_nil_r. now apply IH.
    + now apply IH.
    + apply IH; [now apply invariant_anchor | reflexivity | reflexivity].
    + rewrite init_db_invariant by assumption. now apply IH.
Qed.

(* ================================================================== *)
(** ** The order of text timestamps *)

Lemma ascii_compare_refl c : Ascii.compare c c = Eq.
Proof. unfold Ascii.compare. apply N.compare_refl. Qed.

Lemma ascii_lt_trans a b c :
  Ascii.compare a b = Lt -> Ascii.compare b c = Lt -> Ascii.compare a c = Lt.
Proof.
  unfold Ascii.compare. rewrite !N.compare_lt_iff. apply N.lt_trans.
Qed.

Lemma string_compare_refl s : String.compare s s = Eq.
Proof.
  induction s as [|c s IH]; simpl; auto. now rewrite ascii_compare_refl.
Qed.

Lemma string_lt_trans a :
  forall b c,
    String.compare a b = Lt -> String.compare b c = Lt ->
    String.compare a c = Lt.
Proof.
  induction a as [|x a IH]; intros [|y b] [|z c]; simpl; auto;
    try discriminate.
  destruct (Ascii.compare x y) eqn:Exy; try discriminate;
    destruct (Ascii.compare y z) eqn:Eyz; try discriminate; intros H1 H2.
  - apply Ascii.compare_eq_iff in Exy, Eyz. subst.
    rewrite ascii_compare_refl. eauto.
  - apply Ascii.compare_eq_iff in Exy. subst. now rewrite Eyz.
  - apply Ascii.compare_eq_iff in Eyz. subst. now rewrite Exy.
  - now rewrite (ascii_lt_trans _ _ _ Exy Eyz).
Qed.

Lemma not_earlier_refl a : not_earlier a a.
Proof. unfold not_earlier, String.ltb. now rewrite string_compare_refl. Qed.

Lemma not_earlier_trans a b c :
  not_earlier a b -> not_earlier b c -> not_earlier a c.
Proof.
  unfold not_earlier, String.ltb. intros Hab Hbc.
  destruct (String.compare a c) eqn:Eac; auto.
  destruct (String.compare a b) eqn:Eab; try discriminate.
  - apply String.compare_eq_iff in Eab. subst. now rewrite Eac in Hbc.
  - destruct (String.compare b c) eqn:Ebc; try discriminate.
    + apply String.compare_eq_iff in Ebc. subst. now rewrite Eac in Eab.
    + rewrite String.compare_antisym in Eab, Ebc, Eac.
      destruct (String.compare b a) eqn:Eba; try discriminate.
      destruct (String.compare c b) eqn:Ecb; try discriminate.
      rewrite (string_lt_trans _ _ _ Ecb Eba) in Eac. discriminate.
Qed.

Lemma earlier_not_earlier a b : String.ltb a b = true -> not_earlier b a.
Proof.
  unfold not_earlier, String.ltb. rewrite (String.compare_antisym b a).
  destruct (String.compare a b); simpl; auto; discriminate.
Qed.

(* ================================================================== *)
(** ** [ORDER BY]: sorted, a permutation, stable *)

Lemma insert_desc_perm r l : Permutation (insert_desc r l) (r :: l).
Proof.
  induction l as [|x tl IH]; simpl.
  - reflexivity.
  - destruct (String.ltb (j_timestamp r) (j_timestamp x)).
    + rewrite IH. apply perm_swap.
    + reflexivity.
Qed.

Lemma order_by_perm l : Permutation (order_by_timestamp_desc l) l.
Proof.
  induction l as [|x tl IH]; simpl.
  - reflexivity.
  - rewrite insert_desc_perm. now constructor.
Qed.

Lemma insert_desc_sorted r l :
  StronglySorted desc l -> StronglySorted desc (insert_desc r l).
Proof.
  induction 1 as [|x tl Hs IH Hx]; simpl.
  - repeat constructor.
  - destruct (String.ltb (j_timestamp r) (j_timestamp x)) eqn:E.
    + constructor; [exact IH|].
      eapply Permutation_Forall;
        [apply Permutation_sym, insert_desc_perm|].
      constructor; [now apply earlier_not_earlier | exact Hx].
    + constructor; [now constructor|].
      constructor; [exact E|].
      eapply Forall_impl; [|exact Hx].
      intros y Hy. eapply not_earlier_trans; [exact E | exact Hy].
Qed.

Lemma order_by_sorted l : StronglySorted desc (order_by_timestamp_desc l).
Proof.
  induction l as [|x tl IH]; simpl.
  - constructor.
  - now apply insert_desc_sorted.
Qed.

Lemma insert_desc_front r l :
  Forall (desc r) l -> insert_desc r l = r :: l.
Proof.
  intros H. destruct l as [|x tl]; simpl; auto.
  inv H. unfold desc, not_earlier in H2. now rewrite H2.
Qed.

Lemma filter_insert_desc (p : joined -> bool) r l :
  StronglySorted desc l ->
  filter p (insert_desc r l)
  = if p r then insert_desc r (filter p l) else filter p l.
Proof.
  induction 1 as [|x tl Hs IH Hx]; simpl.
  - now destruct (p r).
  - destruct (String.ltb (j_timestamp r) (j_timestamp x)) eqn:E; simpl.
    + destruct (p x) eqn:Px; rewrite IH; destruct (p r); simpl; auto.
      now rewrite E.
    + destruct (p r) eqn:Pr; auto.
      assert (Hall : Forall (desc r) (x :: tl)).
      { constructor; [exact E|].
        eapply Forall_impl; [|exact Hx].
        intros y Hy. eapply not_earlier_trans; [exact E | exact Hy]. }
      symmetry. apply insert_desc_front.
      apply Forall_forall. intros y Hy.
      change (In y (filter p (x :: tl))) in Hy.
      apply filter_In in Hy. rewrite Forall_forall in Hall.
      now apply Hall.
Qed.

(** Stability: selecting rows commutes with sorting. *)
Lemma filter_order_by p l :
  filter p (order_by_timestamp_desc l)
  = order_by_timestamp_desc (filter p l).
Proof.
  induction l as [|x tl IH]; simpl; auto.
  rewrite filter_insert_desc by apply order_by_sorted.
  rewrite IH. now destruct (p x).
Qed.

(** Rows of one timestamp stay as they are. *)
Lemma order_by_same_key k l :
  Forall (fun x => j_timestamp x = k) l -> order_by_timestamp_desc l = l.
Proof.
  induction 1 as [|x tl Hx Htl IH]; simpl; auto.
  rewrite IH. apply insert_desc_front.
  eapply Forall_impl; [|exact Htl].
  intros y Hy. unfold desc. rewrite Hx, Hy. apply not_earlier_refl.
Qed.

(* ================================================================== *)
(** ** The join *)

Lemma filter_join_row k t os :
  filter (of_token k)
         (map (join_row t)
              (filter (fun o => t_token_number t =? o_token_number o) os))
  = if t_token_number t =? k then
      map (join_row t) (filter (order_of_token k) os)
    else [].
Proof.
  induction os as [|o os IH]; simpl.
  - now destruct (t_token_number t =? k).
  - unfold order_of_token at 1.
    destruct (t_token_number t =? o_token_number o) eqn:E1; simpl.
    + unfold of_token at 1. simpl. rewrite IH.
      apply Z.eqb_eq in E1. rewrite <- E1.
      destruct (t_token_number t =? k); reflexivity.
    + rewrite IH. destruct (t_token_number t =? k) eqn:E2; auto.
      apply Z.eqb_eq in E2. rewrite <- E2, Z.eqb_sym, E1. reflexivity.
Qed.

Lemma filter_join_absent k ts os :
  ~ In k (map t_token_number ts) ->
  filter (of_token k) (join_tokens_orders ts os) = [].
Proof.
  unfold join_tokens_orders.
  induction ts as [|t ts IH]; simpl; intros H; auto.
  rewrite filter_app, filter_join_row, IH by tauto.
  destruct (t_token_number t =? k) eqn:E; auto.
  apply Z.eqb_eq in E. tauto.
Qed.

(** With a key on [tokens], the join rows of a token are its order lines
    in table order, each next to the one row of the token. *)
Lemma filter_join_present t ts os :
  NoDup (map t_token_number ts) ->
  In t ts ->
  filter (of_token (t_token_number t)) (join_tokens_orders ts os)
  = map (join_row t) (filter (order_of_token (t_token_number t)) os).
Proof.
  induction ts as [|x ts IH]; simpl; intros N H; [destruct H|].
  inv N. change (join_tokens_orders (x :: ts) os)
    with (map (join_row x)
              (filter (fun o => t_token_number x =? o_token_number o) os)
          ++ join_tokens_orders ts os).
  rewrite filter_app, filter_join_row.
  destruct H as [->|H].
  - rewrite Z.eqb_refl, filter_join_absent by assumption.
    now rewrite app_nil_r.
  - destruct (t_token_number x =? t_token_number t) eqn:E.
    + apply Z.eqb_eq in E. elim H2. rewrite E. now apply in_map.
    + simpl. now apply IH.
Qed.

Lemma select_queue_of_token st t :
  NoDup (map t_token_number (tokens st)) ->
  In t (tokens st) ->
  filter (of_token (t_token_number t)) (select_queue st)
  = map (join_row t) (filter (order_of_token (t_token_number t)) (orders st)).
Proof.
  intros N H. unfold select_queue.
  rewrite filter_order_by, filter_join_present by assumption.
  apply order_by_same_key with (k := t_timestamp t).
  apply Forall_forall. intros j Hj. apply in_map_iff in Hj.
  now destruct Hj as (o & <- & _).
Qed.

Lemma join_row_in ts os j :
  In j (join_tokens_orders ts os) <->
  exists t o, In t ts /\ In o os /\ t_token_number t = o_token_number o
              /\ j = join_row t o.
Proof.
  unfold join_tokens_orders. rewrite in_flat_map. split.
  - intros (t & Ht & Hj). apply in_map_iff in Hj.
    destruct Hj as (o & <- & Ho). apply filter_In in Ho.
    destruct Ho as [Ho E]. apply Z.eqb_eq in E. now exists t, o.
  - intros (t & o & Ht & Ho & E & ->). exists t. split; auto.
    apply in_map. apply filter_In. split; auto. now apply Z.eqb_eq.
Qed.

(* ================================================================== *)
(** ** Grouping the rows by token *)

Lemma in_keys_true k u : in_keys k u = true <-> In k (map fst u).
Proof.
  unfold in_keys. rewrite existsb_exists, in_map_iff. split.
  - intros (x & Hx & E). apply Z.eqb_eq in E. eauto.
  - intros (x & E & Hx). exists x. split; auto. now apply Z.eqb_eq.
Qed.

Lemma append_item_keys k it u : map fst (append_item k it u) = map fst u.
Proof.
  induction u as [|[k' e] u IH]; simpl; auto.
  destruct (k' =? k); simpl; auto. now rewrite IH.
Qed.

Lemma append_item_stamps k it u : stamps (append_item k it u) = stamps u.
Proof.
  unfold stamps.
  induction u as [|[k' e] u IH]; simpl; auto.
  destruct (k' =? k); simpl; auto. now rewrite IH.
Qed.

Lemma append_item_in k it u k' e' :
  NoDup (map fst u) ->
  In (k', e') (append_item k it u) ->
  (k' <> k /\ In (k', e') u)
  \/ (k' = k /\ exists e, In (k, e) u /\ e' = with_item e it).
Proof.
  induction u as [|[k0 e0] u IH]; simpl; intros N H; [destruct H|].
  inv N. destruct (k0 =? k) eqn:E.
  - apply Z.eqb_eq in E. subst k0. destruct H as [H|H].
    + inv H. right. split; auto. exists e0. split; auto.
    + left. split; auto. intros ->. apply H2.
      change k with (fst (k, e')). now apply in_map.
  - apply Z.eqb_neq in E. destruct H as [H|H].
    + inv H. left. auto.
    + destruct (IH H3 H) as [[Hn Hi]|[-> (e & Hi & ->)]].
      * left. auto.
      * right. split; auto. exists e. auto.
Qed.

Lemma grouped_nil : grouped [] [].
Proof.
  constructor; simpl; try tauto. constructor.
Qed.

Lemma filter_absent k rows :
  (forall r, In r rows -> j_token_number r <> k) ->
  filter (of_token k) rows = [].
Proof.
  induction rows as [|x rows IH]; simpl; intros H; auto.
  unfold of_token at 1.
  destruct (j_token_number x =? k) eqn:E.
  - apply Z.eqb_eq in E. elim (H x); auto.
  - apply IH. intros r Hr. apply H. now right.
Qed.

Lemma grouped_step rows u r :
  grouped rows u -> grouped (rows ++ [r]) (group_step u r).
Proof.
  intros [Hk Hr He]. unfold group_step.
  destruct (in_keys (j_token_number r) u) eqn:Ein; simpl.
  - (* a token already met: one more item *)
    constructor.
    + now rewrite append_item_keys.
    + intros x Hx. rewrite append_item_keys.
      apply in_app_or in Hx. destruct Hx as [Hx|[<-|[]]]; auto.
      now apply in_keys_true.
    + intros k e Hin.
      destruct (append_item_in _ _ _ _ _ Hk Hin)
        as [[Hn Hi]|[-> (e0 & Hi & ->)]].
      * destruct (He _ _ Hi) as (Ht & Hit & x & Hx & Ex & Hh).
        split; [|split]; auto.
        -- rewrite filter_app. simpl. unfold of_token at 2.
           replace (j_token_number r =? k) with false
             by (symmetry; apply Z.eqb_neq; congruence).
           now rewrite app_nil_r.
        -- exists x. split; [|split]; auto. apply in_or_app. now left.
      * destruct (He _ _ Hi) as (Ht & Hit & x & Hx & Ex & Hh).
        split; [|split]; auto.
        -- simpl. rewrite Hit, filter_app, map_app. simpl.
           unfold of_token at 3. now rewrite Z.eqb_refl.
        -- exists x. split; [|split]; auto. apply in_or_app. now left.
  - (* a new token: a new entry, last *)
    assert (Hnew : ~ In (j_token_number r) (map fst u)).
    { rewrite <- in_keys_true. now rewrite Ein. }
    constructor.
    + rewrite map_app. simpl.
      apply NoDup_app_remove_l with (l := []). simpl.
      apply Permutation_NoDup with (l := j_token_number r :: map fst u).
      * apply Permutation_cons_append.
      * now constructor.
    + intros x Hx. rewrite map_app. apply in_or_app.
      apply in_app_or in Hx. destruct Hx as [Hx|[<-|[]]]; auto.
      right. now left.
    + intros k e Hin. apply in_app_or in Hin. destruct Hin as [Hi|[Hi|[]]].
      * destruct (He _ _ Hi) as (Ht & Hit & x & Hx & Ex & Hh).
        assert (k <> j_token_number r).
        { intros ->. apply Hnew. change (j_token_number r)
            with (fst (j_token_number r, e)). now apply in_map. }
        split; [|split]; auto.
        -- rewrite filter_app. simpl. unfold of_token at 2.
           replace (j_token_number r =? k) with false
             by (symmetry; apply Z.eqb_neq; congruence).
           now rewrite app_nil_r.
        -- exists x. split; [|split]; auto. apply in_or_app. now left.
      * inv Hi. simpl. split; [|split]; auto.
        -- rewrite filter_app, filter_absent.
           ++ simpl. unfold of_token. now rewrite Z.eqb_refl.
           ++ intros x Hx E. apply Hnew. rewrite <- E. now apply Hr.
        -- exists r. split; [|split]; auto.
           ++ apply in_or_app. right. now left.
           ++ unfold head_of. simpl. auto.
Qed.

Lemma grouped_fold rows : grouped rows (fold_left group_step rows []).
Proof.
  induction rows as [|r rows IH] using rev_ind.
  - apply grouped_nil.
  - rewrite fold_left_app. simpl. now apply grouped_step.
Qed.

Lemma sorted_snoc_inv {A} (R : A -> A -> Prop) l a :
  StronglySorted R (l ++ [a]) ->
  StronglySorted R l /\ Forall (fun x => R x a) l.
Proof.
  induction l as [|x l IH]; simpl; intros H.
  - split; constructor.
  - inv H. destruct (IH H2) as [Hs Ha]. split.
    + constructor; auto. rewrite Forall_app in H3. tauto.
    + constructor; auto. rewrite Forall_app in H3.
      destruct H3 as [_ H3]. now inv H3.
Qed.

Lemma sorted_snoc {A} (R : A -> A -> Prop) l a :
  StronglySorted R l -> Forall (fun x => R x a) l ->
  StronglySorted R (l ++ [a]).
Proof.
  induction 1 as [|x l Hs IH Hx]; simpl; intros Ha.
  - repeat constructor.
  - inv Ha. constructor; auto. rewrite Forall_app. split; auto.
Qed.

(** Entries come in the order their tokens are first met, so over sorted
    rows the newest entry is first. *)
Lemma stamps_sorted rows :
  StronglySorted desc rows ->
  StronglySorted not_earlier (stamps (fold_left group_step rows [])).
Proof.
  induction rows as [|r rows IH] using rev_ind; intros Hs.
  - constructor.
  - apply sorted_snoc_inv in Hs. destruct Hs as [Hs Hr].
    rewrite fold_left_app. cbn [fold_left].
    pose proof (grouped_fold rows) as G. specialize (IH Hs).
    set (u := fold_left group_step rows []) in *.
    unfold group_step.
    destruct (in_keys (j_token_number r) u); cbn [negb].
    + now rewrite append_item_stamps.
    + unfold stamps. rewrite map_app. simpl. apply sorted_snoc.
      * exact IH.
      * apply Forall_forall. intros s Hin. apply in_map_iff in Hin.
        destruct Hin as ([k e] & <- & Hin). simpl.
        destruct (g_entry G _ _ Hin) as (_ & _ & x & Hx & _ & Hh).
        destruct Hh as (_ & _ & -> & _).
        rewrite Forall_forall in Hr. now apply Hr.
Qed.

(* ================================================================== *)
(** ** The queue of a state of a run *)

Lemma sorted_map {A B} (f : A -> B) (R : B -> B -> Prop) l :
  StronglySorted R (map f l) <->
  StronglySorted (fun a b => R (f a) (f b)) l.
Proof.
  induction l as [|x l IH]; simpl; split; intros H; constructor; inv H;
    try (now apply IH); rewrite Forall_map in *; assumption.
Qed.

Lemma grouped_tokens rows u :
  grouped rows u -> map q_token_number (map snd u) = map fst u.
Proof.
  intros G. rewrite map_map. apply map_ext_in.
  intros [k e] Hin. simpl. now destruct (g_entry G _ _ Hin).
Qed.

Lemma select_queue_in st j :
  In j (select_queue st) <->
  exists t o, In t (tokens st) /\ In o (orders st)
              /\ t_token_number t = o_token_number o /\ j = join_row t o.
Proof.
  rewrite <- join_row_in. unfold select_queue. split; intros H.
  - eapply Permutation_in; [apply order_by_perm | exact H].
  - eapply Permutation_in; [apply Permutation_sym, order_by_perm | exact H].
Qed.

Lemma map_item_of_row t os :
  map item_of_row (map (join_row t) os) = map item_of_order os.
Proof. rewrite map_map. reflexivity. Qed.

Lemma get_queue_spec st :
  invariant st ->
  let q := get_queue st in
  NoDup (map q_token_number q)
  /\ (forall k, In k (map q_token_number q) <->
                exists o, In o (orders st) /\ o_token_number o = k)
  /\ (forall e, In e q ->
        exists t, In t (tokens st)
                  /\ entry_of e t (filter (order_of_token (q_token_number e))
                                          (orders st)))
  /\ StronglySorted newest_first q.
Proof.
  intros I q. unfold get_queue in q.
  pose proof (grouped_fold (select_queue st)) as G.
  set (u := fold_left group_step (select_queue st) []) in *.
  subst q. rewrite (grouped_tokens G). repeat split.
  - apply (g_keys G).
  - intros Hk. apply in_map_iff in Hk. destruct Hk as ([k' e] & <- & Hin).
    destruct (g_entry G _ _ Hin) as (_ & _ & r & Hr & Er & _).
    apply select_queue_in in Hr.
    destruct Hr as (t & o & Ht & Ho & E & ->). simpl in Er.
    exists o. split; auto. simpl. congruence.
  - intros (o & Ho & <-).
    pose proof (inv_orders I) as Hall. rewrite Forall_forall in Hall.
    destruct (Hall _ Ho) as [_ Hin]. apply in_map_iff in Hin.
    destruct Hin as (t & Et & Ht). rewrite <- Et.
    apply (g_rows G (join_row t o)).
    apply select_queue_in. now exists t, o.
  - intros e He. apply in_map_iff in He. destruct He as ([k e'] & <- & Hin).
    simpl. destruct (g_entry G _ _ Hin) as (Ek & Hit & r & Hr & Er & Hh).
    apply select_queue_in in Hr.
    destruct Hr as (t & o & Ht & Ho & E & ->). simpl in Er.
    destruct Hh as (H1 & H2 & H3 & H4). simpl in *.
    exists t. split; auto. unfold entry_of. repeat split; auto.
    rewrite Hit, Ek, <- Er.
    rewrite (select_queue_of_token st t (inv_key I) Ht).
    apply map_item_of_row.
  - apply (sorted_map q_timestamp not_earlier).
    rewrite map_map. apply stamps_sorted. apply order_by_sorted.
Qed.

Lemma key_injective (l : list token_row) a b :
  NoDup (map t_token_number l) ->
  In a l -> In b l -> t_token_number a = t_token_number b -> a = b.
Proof.
  induction l as [|x l IH]; simpl; intros N Ha Hb E; [destruct Ha|].
  inv N. destruct Ha as [->|Ha], Hb as [->|Hb]; auto.
  - elim H1. rewrite E. now apply in_map.
  - elim H1. rewrite <- E. now apply in_map.
Qed.

Lemma lines_shown data tn now items es rows :
  lines data tn now items es rows ->
  Forall (fun e => numeric (e_amount e)) es ->
  Forall2 shown_as es (map item_of_order rows).
Proof.
  induction 1 as [|kv e row items es rows L _ IH]; intros N; simpl;
    constructor.
  - apply Forall_cons_iff in N. destruct N as [Na _].
    destruct L. unfold shown_as. simpl. repeat split; auto.
    + congruence.
    + apply stored_real; auto. eapply py_mul_numeric; eauto.
  - apply Forall_cons_iff in N. destruct N as [_ N]. now apply IH.
Qed.

Lemma lines_nonempty data tn now items es rows :
  lines data tn now items es rows -> items <> [] -> rows <> [].
Proof. intros L N. destruct L; [now elim N | discriminate]. Qed.

Lemma filter_all {A} (p : A -> bool) l :
  Forall (fun x => p x = true) l -> filter p l = l.
Proof.
  induction 1 as [|x l Hx _ IH]; simpl; auto. now rewrite Hx, IH.
Qed.

Lemma filter_none {A} (p : A -> bool) l :
  Forall (fun x => p x = false) l -> filter p l = [].
Proof.
  induction 1 as [|x l Hx _ IH]; simpl; auto. now rewrite Hx.
Qed.

(** After a call that returned 200 the queue has the entry of the receipt. *)
Lemma placed_queue data now fmt st r st' :
  invariant st ->
  placed data now fmt st r st' ->
  exists e,
    In e (get_queue st')
    /\ q_token_number e = r_token_number r
    /\ q_timestamp e = r_timestamp r
    /\ stored TEXT (r_customer_id r) (q_customer_id e)
    /\ stored REAL (r_total r) (q_total e)
    /\ option_map SReal (real_of (r_total r)) = Some (q_total e)
    /\ Forall2 shown_as (r_items r) (q_items e).
Proof.
  intros I P. pose proof (placed_invariant I P) as I'.
  destruct (invariant_max I) as (m & Em & Hm & En & Hfresh).
  destruct (get_queue_spec I') as (_ & Hin & Hent & _).
  inv P. subst token_number. rewrite En in *. simpl in *.
  assert (Hrows : rows <> []) by (eapply lines_nonempty; eauto).
  assert (Hnew : filter (order_of_token (m + 1)) (orders st ++ rows) = rows).
  { rewrite filter_app, filter_none, filter_all; auto.
    - eapply Forall_impl; [|eapply lines_rows_token; eauto].
      intros o E. unfold order_of_token. now apply Z.eqb_eq.
    - eapply Forall_impl; [|apply (inv_orders I)].
      intros o [_ Ho]. unfold order_of_token. apply Z.eqb_neq.
      intros E. apply Hfresh. now rewrite <- E. }
  destruct rows as [|row0 rows0] eqn:Erows; [now elim Hrows|].
  rewrite <- Erows in *.
  assert (Hk : In (m + 1) (map q_token_number
                   (get_queue
                      (mk_db (put_token (mk_token (m + 1) c now t) (tokens st))
                             (orders st ++ rows) seq')))).
  { apply Hin. exists row0. split.
    - apply in_or_app. right. rewrite Erows. now left.
    - assert (Hr : Forall (fun o => o_token_number o = m + 1) rows)
        by (eapply lines_rows_token; eauto).
      rewrite Erows in Hr. now inv Hr. }
  apply in_map_iff in Hk. destruct Hk as (e & Ee & He).
  destruct (Hent _ He) as (t0 & Ht0 & E1 & E2 & E3 & E4 & E5).
  rewrite Ee in *. rewrite Hnew in E5.
  assert (t0 = mk_token (m + 1) c now t).
  { eapply key_injective; [apply (inv_key I') | exact Ht0 | |].
    - simpl. apply put_token_in. now left.
    - simpl. congruence. }
  subst t0. simpl in *.
  destruct (@add_amounts_numeric es (PInt 0) total) as [Na Nt]; auto;
    [discriminate|].
  exists e. repeat split; auto.
  - now rewrite E2.
  - now rewrite E4.
  - rewrite E4. now apply stored_real.
  - rewrite E5. eapply lines_shown; eauto.
Qed.

(* ================================================================== *)
(** ** Sample requests *)

Example tea_then_dosa :
  place_all fresh_db
    [(tea_order, morning, morning_text); (dosa_order, noon, noon_text)]
  = [1000; 1001].
Proof. reflexivity. Qed.

Example tea_receipt :
  fst (generate_token tea_order morning morning_text fresh_db)
  = Resp200 (mk_receipt 1000 morning (PInt 20)
               [mk_entry "tea" (PInt 2) (PInt 10) (PInt 20)]
               (PStr "c1") morning_text).
Proof. reflexivity. Qed.

Example dosa_receipt_total :
  match fst (generate_token dosa_order noon noon_text after_tea) with
  | Resp200 r => r_total r
  | _ => PNone
  end = PFloat 156.5.
Proof. vm_compute. reflexivity. Qed.

Example columns_keep_by_affinity :
  coerce TEXT (SInt 5) = SText "5"
  /\ coerce INTEGER (SReal 2) = SInt 2
  /\ coerce INTEGER (SReal 2.5) = SReal 2.5
  /\ coerce REAL (SInt 10) = SReal 10
  /\ coerce REAL (SInt 9007199254740993) = SReal 9007199254740992
  /\ coerce REAL (SReal 45.5) = SReal 45.5
  /\ coerce REAL (SReal 20) = SReal 20
  /\ coerce REAL (SReal 1e15) = SReal 1e15
  /\ coerce REAL (SReal (-0)) = SReal 0
  /\ coerce INTEGER (SReal 9223372036854775808) = SReal 9223372036854775808
  /\ coerce TEXT (SReal 1.5) = STextOf 1.5
  /\ coerce REAL (SText "12") = SNumericOf REAL "12".
Proof. repeat split; vm_compute; reflexivity. Qed.

Example numeric_customer_queue :
  get_queue (snd (generate_token numeric_customer_order morning morning_text
                                 fresh_db))
  = [mk_queue_entry 1000 (SText "5") morning (SReal 20)
       [mk_item (SText "tea") (SInt 2) (SReal 10)]].
Proof. vm_compute. reflexivity. Qed.

Example queue_newest_first :
  map q_token_number
      (get_queue (run fresh_db [PlaceOrder tea_order morning morning_text;
                                PlaceOrder dosa_order noon noon_text]))
  = [1001; 1000].
Proof. vm_compute. reflexivity. Qed.

(* ================================================================== *)
(** ** The queue listing *)

(** C2. In every state of a run, the queue has one entry per token that
    has order lines; an entry carries the customer, timestamp and total of
    its [tokens] row and the order lines of its token in the order they
    were inserted; entries come newest timestamp first; and after a call
    that returned 200 the queue has the entry of the receipt, with the
    items of the receipt in their order, each value as its column keeps
    it (the customer as text, the quantity as an integer where it is one,
    price and total as floats). *)
Theorem get_queue_groups_by_token :
  forall rqs : list request,
    let st := run fresh_db rqs in
    let q := get_queue st in
    NoDup (map q_token_number q)
    /\ (forall k, In k (map q_token_number q) <->
                  exists o, In o (orders st) /\ o_token_number o = k)
    /\ (forall e, In e q ->
          exists t, In t (tokens st)
                    /\ entry_of e t
                         (filter (order_of_token (q_token_number e))
                                 (orders st)))
    /\ StronglySorted newest_first q
    /\ (forall data now fmt r st',
          generate_token data now fmt st = (Resp200 r, st') ->
          exists e,
            In e (get_queue st')
            /\ q_token_number e = r_token_number r
            /\ q_timestamp e = r_timestamp r
            /\ stored TEXT (r_customer_id r) (q_customer_id e)
            /\ stored REAL (r_total r) (q_total e)
            /\ option_map SReal (real_of (r_total r)) = Some (q_total e)
            /\ Forall2 shown_as (r_items r) (q_items e)).
Proof.
  intros rqs st q.
  assert (I : invariant st) by (apply reachable_invariant; now exists rqs).
  destruct (get_queue_spec I) as (H1 & H2 & H3 & H4).
  repeat split; auto; try apply H2.
  intros data now fmt r st' E. apply generate_token_ok in E.
  eapply placed_queue; eauto.
Qed.

Lemma get_queue_groups_by_token_witness :
  exists r st',
    generate_token dosa_order noon noon_text after_tea = (Resp200 r, st')
    /\ exists e,
         In e (get_queue st')
         /\ q_token_number e = r_token_number r
         /\ q_timestamp e = r_timestamp r
         /\ stored TEXT (r_customer_id r) (q_customer_id e)
         /\ stored REAL (r_total r) (q_total e)
         /\ option_map SReal (real_of (r_total r)) = Some (q_total e)
         /\ Forall2 shown_as (r_items r) (q_items e).
Proof.
  eexists. eexists. split.
  - vm_compute. reflexivity.
  - apply (proj2 (proj2 (proj2 (proj2
             (get_queue_groups_by_token
                [PlaceOrder tea_order morning morning_text]))))
             dosa_order noon noon_text).
    vm_compute. reflexivity.
Defined.

(* ================================================================== *)
(** ** Rejections and failures *)

Lemma contains_same_kind k k' data b :
  py_contains k data = Ok b -> exists b', py_contains k' data = Ok b'.
Proof. destruct data; simpl; intros H; try discriminate; eauto. Qed.

Lemma getitem_contains data k v :
  py_getitem data k = Ok v -> py_truth data = true /\ py_contains k data = Ok true.
Proof.
  destruct data; simpl; try discriminate.
  destruct (dict_get d k) eqn:E; try discriminate. intros _.
  split; auto. destruct d; [discriminate | reflexivity].
Qed.

Lemma status_400 data now fmt st :
  (exists msg, fst (generate_token data now fmt st) = Resp400 msg)
  <-> rejected data.
Proof.
  unfold generate_token, invalid_order_data, valid_items, rejected.
  split.
  - intros [msg H].
    destruct (py_truth data) eqn:Et; simpl in H; [|now left].
    destruct (py_contains "items" data) as [[|]|] eqn:Ei; simpl in H;
      try discriminate; [|right; now left].
    destruct (py_contains "customer_id" data) as [[|]|] eqn:Ec; simpl in H;
      try discriminate; [|right; right; now left].
    right; right; right.
    destruct (py_getitem data "items") as [its|] eqn:Eg; simpl in H;
      try discriminate.
    destruct its as [| | | | | |items]; simpl in H; try discriminate.
    destruct (dict_comprehension items []) as [[|kv d]|] eqn:Ed;
      simpl in H; try discriminate.
    + exists items. split; auto. now apply dict_comprehension_nil.
    + destruct (with_conn (place_order data (kv :: d) now fmt) st)
        as [[r|e] st']; discriminate.
  - intros [Ht|[Hi|[Hc|(items & Hg & Hn)]]].
    + rewrite Ht. simpl. eauto.
    + destruct (py_truth data); simpl; eauto. rewrite Hi. simpl. eauto.
    + destruct (py_truth data); simpl; eauto.
      destruct (@contains_same_kind "customer_id" "items" _ _ Hc)
        as [b Hb].
      rewrite Hb. simpl. destruct b; simpl; eauto.
      rewrite Hc. simpl. eauto.
    + destruct (@getitem_contains _ _ _ Hg) as [Ht Hi].
      rewrite Ht, Hi. simpl.
      destruct (@contains_same_kind "items" "customer_id" _ _ Hi)
        as [b Hb].
      rewrite Hb. simpl. destruct b; simpl; eauto.
      rewrite Hg. simpl. apply dict_comprehension_nil in Hn.
      rewrite Hn. simpl. eauto.
Qed.

(** C3, as the code has it. A 400 is returned exactly when the body is
    falsy, has no ["items"], has no ["customer_id"], or has items that all
    evaluate and of which none has a quantity above zero; the customer id
    is only looked up, an empty one is accepted. Whenever the response is
    not a 200, both tables are as they were. *)
Theorem generate_token_rejects_and_rolls_back :
  forall (data : pyval) (now fmt : string) (st : db),
    ((exists msg, fst (generate_token data now fmt st) = Resp400 msg)
     <-> rejected data)
    /\ ((forall r, fst (generate_token data now fmt st) <> Resp200 r) ->
        snd (generate_token data now fmt st) = st).
Proof.
  intros data now fmt st. split.
  - apply status_400.
  - intros H.
    destruct (generate_token data now fmt st) as [rs st'] eqn:E.
    simpl in *. eapply generate_token_rollback; eauto.
Qed.

Lemma generate_token_rejects_and_rolls_back_witness :
  fst (generate_token unpriced_order noon noon_text after_tea)
  = Resp500 (KeyError "price")
  /\ snd (generate_token unpriced_order noon noon_text after_tea) = after_tea.
Proof.
  split.
  - vm_compute. reflexivity.
  - apply (proj2 (generate_token_rejects_and_rolls_back
                    unpriced_order noon noon_text after_tea)).
    intros r. vm_compute. discriminate.
Defined.

(** C3 as stated fails: an empty customer id is not a 400. *)
Lemma empty_customer_id_is_accepted :
  py_getitem empty_customer_order "customer_id" = Ok (PStr "")
  /\ fst (generate_token empty_customer_order morning morning_text fresh_db)
     = Resp200 (mk_receipt 1000 morning (PInt 10)
                  [mk_entry "tea" (PInt 1) (PInt 10) (PInt 10)]
                  (PStr "") morning_text)
  /\ map t_customer_id
         (tokens (snd (generate_token empty_customer_order morning
                                      morning_text fresh_db)))
     = [SText "SYSTEM"; SText ""].
Proof. repeat split. Qed.

(* ================================================================== *)
(** ** Token numbers across clears *)

(** C4 as stated fails: after a clear the number 1000 is handed out again. *)
Lemma token_number_reused_after_clear :
  assigned_ever fresh_db tea_clear_tea = [1000; 1000]
  /\ ~ NoDup (assigned_ever fresh_db tea_clear_tea)
  /\ ~ StronglySorted Z.lt (assigned_ever fresh_db tea_clear_tea).
Proof.
  assert (E : assigned_ever fresh_db tea_clear_tea = [1000; 1000])
    by reflexivity.
  rewrite E. repeat split.
  - intros N. inv N. apply H1. now left.
  - intros S. inv S. inv H2. lia.
Qed.

(** C4, as the code has it. Over any run, the token numbers handed out
    since the last clear (or since the start) are 1000, 1001, ... in this
    order: strictly increasing and without reuse between two clears, and
    starting again at 1000 after each clear. *)
Theorem token_numbers_increase_between_clears :
  forall rqs : list request,
    let ts := assigned_since_clear fresh_db rqs [] in
    ts = zseq 1000 (List.length ts)
    /\ StronglySorted Z.lt ts
    /\ NoDup ts.
Proof.
  intros rqs ts.
  assert (E : ts = zseq 1000 (List.length ts)).
  { apply assigned_since_clear_spec;
      [now apply invariant_anchor | reflexivity | reflexivity]. }
  split; [exact E|]. rewrite E. split.
  - apply zseq_sorted.
  - apply sorted_lt_nodup, zseq_sorted.
Qed.

(* ================================================================== *)
(** ** Amounts, totals and what is persisted *)

(** C5 as stated fails for what is persisted: three items at 2^53 + 1 each
    are answered with the exact amount and total 27021597764222979, and the
    [REAL] columns keep the nearest float, 27021597764222980 (and
    9007199254740992 for the price). *)
Lemma big_amount_is_rounded_when_stored :
  fst (generate_token big_price_order morning morning_text fresh_db)
  = Resp200 (mk_receipt 1000 morning (PInt 27021597764222979)
               [mk_entry "tea" (PInt 3) (PInt 9007199254740993)
                         (PInt 27021597764222979)]
               (PStr "c1") morning_text)
  /\ 3 * 9007199254740993 = 27021597764222979
  /\ map o_amount
         (orders (snd (generate_token big_price_order morning morning_text
                                      fresh_db)))
     = [SReal 27021597764222980]
  /\ map t_total_amount
         (tokens (snd (generate_token big_price_order morning morning_text
                                      fresh_db)))
     = [SReal 0; SReal 27021597764222980]
  /\ integer_of_real 27021597764222980 = Some 27021597764222980
  /\ map o_price
         (orders (snd (generate_token big_price_order morning morning_text
                                      fresh_db)))
     = [SReal 9007199254740992].
Proof. repeat split; vm_compute; reflexivity. Qed.

(** C5, as the code has it. After a call that returned 200, the entries of
    the response are the items of the request with a quantity above zero,
    in order, each with [amount = quantity * price] as Python computes it
    (exactly, on integers), and the total is the sum of the amounts in item
    order starting from 0.  The new rows of [orders] hold quantity, price
    and amount of the entries in the same order and the new row of
    [tokens] holds the total, as their columns keep them: amount and total
    as a REAL, which is the value itself for a [float] and the nearest
    binary64 for an [int]. *)
Theorem amounts_are_products_and_kept_as_reals :
  forall (data : pyval) (now fmt : string) (st st' : db) (r : receipt)
         (pairs : dict),
    generate_token data now fmt st = (Resp200 r, st') ->
    py_getitem data "items" = Ok (PDict pairs) ->
    NoDup (dict_keys pairs) ->
    Forall2 entry_for (filter keeps pairs) (r_items r)
    /\ add_amounts (PInt 0) (r_items r) = Ok (r_total r)
    /\ (exists rows,
          orders st' = orders st ++ rows
          /\ Forall2 persisted_as (r_items r) rows
          /\ Forall (fun o => o_token_number o = r_token_number r) rows)
    /\ (exists t,
          In t (tokens st')
          /\ t_token_number t = r_token_number r
          /\ stored REAL (r_total r) (t_total_amount t)
          /\ option_map SReal (real_of (r_total r))
             = Some (t_total_amount t)).
Proof.
  intros data now fmt st st' r pairs H Hg N. apply generate_token_ok in H.
  inv H. simpl.
  pose proof (valid_items_filter _ Hg N H1) as Ef.
  destruct (@add_amounts_numeric es (PInt 0) total) as [Na Nt]; auto;
    [discriminate|].
  repeat split; auto.
  - rewrite <- Ef. eapply lines_entries; eauto.
  - exists rows. repeat split; auto.
    + eapply lines_persisted; eauto.
    + eapply lines_rows_token; eauto.
  - exists (mk_token token_number c now t). repeat split; auto.
    + apply put_token_in. now left.
    + simpl. now apply stored_real.
Qed.

Lemma amounts_are_products_and_kept_as_reals_witness :
  exists r st',
    generate_token dosa_order noon noon_text after_tea = (Resp200 r, st')
    /\ Forall2 entry_for
          (filter keeps
             [("dosa", line_item (PInt 3) (PFloat 45.5));
              ("vada", line_item (PInt 1) (PInt 20))])
          (r_items r)
    /\ add_amounts (PInt 0) (r_items r) = Ok (r_total r)
    /\ (exists rows,
          orders st' = orders after_tea ++ rows
          /\ Forall2 persisted_as (r_items r) rows
          /\ Forall (fun o => o_token_number o = r_token_number r) rows)
    /\ (exists t,
          In t (tokens st')
          /\ t_token_number t = r_token_number r
          /\ stored REAL (r_total r) (t_total_amount t)
          /\ option_map SReal (real_of (r_total r))
             = Some (t_total_amount t)).
Proof.
  eexists. eexists. split.
  - vm_compute. reflexivity.
  - apply (@amounts_are_products_and_kept_as_reals
             dosa_order noon noon_text after_tea).
    + vm_compute. reflexivity.
    + reflexivity.
    + repeat constructor; simpl; intuition discriminate.
Defined.

(* ================================================================== *)
(** ** Items that are filtered out *)

(** C6. For every request, an item whose quantity is not above zero is
    never persisted: no row that the call adds to [orders] bears its name
    (a call that does not return 200 adds none at all).  When the call
    returns 200, the item is not among the items of the response, every
    item of the response has a quantity above zero, and the total is the
    sum over the items of the response alone. *)
Theorem filtered_items_leave_no_trace :
  forall (data : pyval) (now fmt : string) (st : db)
         (pairs : dict) (k : string) (v q : pyval),
    py_getitem data "items" = Ok (PDict pairs) ->
    NoDup (dict_keys pairs) ->
    In (k, v) pairs ->
    py_getitem v "quantity" = Ok q ->
    py_gt0 q = Ok false ->
    let out := generate_token data now fmt st in
    (exists rows,
       orders (snd out) = orders st ++ rows
       /\ (In k (map o_item_name rows) -> False))
    /\ (forall r,
          fst out = Resp200 r ->
          (In k (map e_item_name (r_items r)) -> False)
          /\ Forall (fun e => py_gt0 (e_quantity e) = Ok true) (r_items r)
          /\ add_amounts (PInt 0) (r_items r) = Ok (r_total r)).
Proof.
  intros data now fmt st pairs k v q Hg N Hin Hq Hz out. subst out.
  destruct (generate_token data now fmt st) as [rs st'] eqn:E.
  destruct rs as [r|msg|e]; simpl.
  - apply generate_token_ok in E. inv E. simpl.
    pose proof (valid_items_filter _ Hg N H0) as Ef.
    destruct (lines_names H2) as [En Er].
    assert (Hk : ~ In k (dict_keys items)).
    { rewrite Ef. unfold dict_keys. intros Hc. apply in_map_iff in Hc.
      destruct Hc as ([k' v'] & Ek & Hf). simpl in Ek. subst k'.
      apply filter_In in Hf. destruct Hf as [Hin' Hkeep].
      assert (v' = v) by (eapply dict_key_unique; eauto). subst v'.
      unfold keeps in Hkeep. simpl in Hkeep. rewrite Hq, Hz in Hkeep.
      discriminate. }
    split.
    + exists rows. split; auto. now rewrite Er.
    + intros r Hr. inv Hr. simpl. repeat split; auto.
      * now rewrite En.
      * eapply lines_positive; eauto. eapply valid_items_positive; eauto.
  - apply generate_token_rollback in E; [|discriminate]. subst st'.
    split; [|discriminate].
    exists []. split; [now rewrite app_nil_r | intros []].
  - apply generate_token_rollback in E; [|discriminate]. subst st'.
    split; [|discriminate].
    exists []. split; [now rewrite app_nil_r | intros []].
Qed.

Lemma filtered_items_leave_no_trace_witness :
  (exists rows,
     orders (snd (generate_token tea_order morning morning_text fresh_db))
     = orders fresh_db ++ rows
     /\ (In "coffee" (map o_item_name rows) -> False))
  /\ (forall r,
        fst (generate_token tea_order morning morning_text fresh_db)
        = Resp200 r ->
        (In "coffee" (map e_item_name (r_items r)) -> False)
        /\ Forall (fun e => py_gt0 (e_quantity e) = Ok true) (r_items r)
        /\ add_amounts (PInt 0) (r_items r) = Ok (r_total r)).
Proof.
  apply (@filtered_items_leave_no_trace
           tea_order morning morning_text fresh_db
           [("tea", line_item (PInt 2) (PInt 10));
            ("coffee", line_item (PInt 0) (PInt 20))]
           "coffee" (line_item (PInt 0) (PInt 20)) (PInt 0)).
  - reflexivity.
  - repeat constructor; simpl; intuition discriminate.
  - right. now left.
  - reflexivity.
  - reflexivity.
Defined.

(* ================================================================== *)
(** ** Clearing *)

(** C7. [clear_orders] always succeeds and leaves exactly the sentinel in
    [tokens] and nothing in [orders], all three statements or none; a second
    clear changes nothing; and the next token number handed out after a
    clear is 1000. *)
Theorem clear_orders_resets_and_is_idempotent :
  forall st : db,
    let cleared := snd (clear_orders st) in
    fst (clear_orders st) = Cleared "All orders cleared"
    /\ tokens cleared = [sentinel]
    /\ orders cleared = []
    /\ sentinel = mk_token 999 (SText "SYSTEM") "2000-01-01T00:00:00" (SReal 0)
    /\ clear_orders cleared = clear_orders st
    /\ get_queue cleared = []
    /\ forall data now fmt,
         Forall (fun n => n = 1000)
                (assigned (fst (generate_token data now fmt cleared))).
Proof.
  intros st cleared. subst cleared. rewrite clear_orders_eq. simpl.
  repeat split.
  intros data now fmt.
  set (c := mk_db [sentinel] [] (orders_seq st)).
  destruct (generate_token data now fmt c) as [rs st'] eqn:E.
  destruct rs as [r|msg|e]; simpl; constructor; [|constructor].
  apply generate_token_ok in E.
  assert (I : invariant c) by now apply invariant_anchor.
  destruct (placed_max I E) as (m & Em & _ & Er & _).
  simpl in Em. inv Em. exact Er.
Qed.

(* ================================================================== *)
(** ** The sentinel *)

(** C8. In every state of a run the sentinel row is in [tokens], no order
    line has token number 999, no entry of the queue has it, and every
    token number that [generate_token] hands out is at least 1000. *)
Theorem sentinel_never_in_queue :
  forall rqs : list request,
    let st := run fresh_db rqs in
    In sentinel (tokens st)
    /\ Forall (fun o => o_token_number o <> 999) (orders st)
    /\ Forall (fun e => q_token_number e <> 999) (get_queue st)
    /\ forall data now fmt,
         Forall (fun n => 1000 <= n)
                (assigned (fst (generate_token data now fmt st))).
Proof.
  intros rqs st.
  assert (I : invariant st) by (apply reachable_invariant; now exists rqs).
  destruct (get_queue_spec I) as (_ & H2 & _).
  assert (Ho : Forall (fun o => o_token_number o <> 999) (orders st)).
  { eapply Forall_impl; [|apply (inv_orders I)]. simpl. intros o [H _]. lia. }
  repeat split.
  - apply (inv_sentinel I).
  - exact Ho.
  - apply Forall_forall. intros e He E.
    assert (Hk : In 999 (map q_token_number (get_queue st))).
    { rewrite <- E. now apply in_map. }
    apply H2 in Hk. destruct Hk as (o & Hin & Eo).
    rewrite Forall_forall in Ho. now apply (Ho o Hin).
  - intros data now fmt.
    destruct (generate_token data now fmt st) as [rs st'] eqn:E.
    destruct rs as [r|msg|e]; simpl; constructor; [|constructor].
    apply generate_token_ok in E.
    destruct (placed_max I E) as (m & _ & Hm & Er & _). lia.
Qed.

(* ================================================================== *)
(** ** The store of a run: what is kept from request to request *)

Lemma consistent_anchor seq : consistent (mk_db [sentinel] [] seq).
Proof.
  constructor; unfold token_lines; simpl.
  - intros t _. constructor.
  - intros t [<-|[]]. now left.
  - constructor.
  - repeat constructor.
Qed.

Lemma placed_consistent data now fmt st r st' :
  invariant st -> consistent st ->
  placed data now fmt st r st' ->
  consistent st'.
Proof.
  intros I C P. destruct (invariant_max I) as (m & Em & Hm & En & Hfresh).
  inv P. subst token_number. rewrite En in *.
  assert (Pos : Forall positive items) by (eapply valid_items_positive; eauto).
  destruct (@add_amounts_numeric es (PInt 0) total) as [N Nt]; auto;
    [discriminate|].
  pose proof (@lines_line_of _ _ _ _ _ _ _ _ t H2 H4 H5) as Hl.
  pose proof (lines_declared H2 Pos N) as Hd.
  assert (Hrows : Forall (fun o => o_token_number o = m + 1) rows)
    by (eapply lines_rows_token; eauto).
  assert (Hnew : filter (order_of_token (m + 1)) (orders st ++ rows) = rows).
  { rewrite filter_app, filter_none, filter_all; auto.
    - eapply Forall_impl; [|exact Hrows].
      intros o E. unfold order_of_token. now apply Z.eqb_eq.
    - eapply Forall_impl; [|apply (inv_orders I)].
      intros o [_ Ho]. unfold order_of_token. apply Z.eqb_neq.
      intros E. apply Hfresh. now rewrite <- E. }
  assert (Hold : forall t0, In t0 (tokens st) ->
            filter (order_of_token (t_token_number t0)) (orders st ++ rows)
            = filter (order_of_token (t_token_number t0)) (orders st)).
  { intros t0 Ht0. rewrite filter_app.
    replace (filter (order_of_token (t_token_number t0)) rows)
      with (@nil order_row); [now rewrite app_nil_r|].
    symmetry. apply filter_none.
    eapply Forall_impl; [|exact Hrows].
      intros o E. unfold order_of_token. apply Z.eqb_neq. rewrite E.
      intros E'. apply Hfresh. rewrite E'. now apply in_map. }
  constructor; unfold token_lines; simpl.
  - intros t0 Ht0. apply put_token_in in Ht0.
    destruct Ht0 as [->|Ht0]; simpl.
    + now rewrite Hnew.
    + rewrite (Hold _ Ht0). apply (c_lines C _ Ht0).
  - intros t0 Ht0. apply put_token_in in Ht0.
    destruct Ht0 as [->|Ht0]; simpl.
    + right. rewrite Hnew. eapply lines_nonempty; eauto.
    + rewrite (Hold _ Ht0). apply (c_nonempty C _ Ht0).
  - apply Forall_app. split; [apply (c_orders C) | exact Hd].
  - eapply Permutation_Forall; [apply Permutation_sym, put_token_perm|].
    constructor; [|apply (c_tokens C)].
    unfold token_as_declared. simpl.
    rewrite (stored_text_is_text H5), (stored_real_is_real Nt H6).
    reflexivity.
Qed.

Lemma step_consistent st rq :
  invariant st -> consistent st -> consistent (step st rq).
Proof.
  intros I C. destruct rq as [data now fmt| | |]; simpl.
  - destruct (generate_token data now fmt st) as [rs st'] eqn:E.
    destruct rs as [r|msg|e].
    + apply generate_token_ok in E. simpl. eapply placed_consistent; eauto.
    + apply generate_token_rollback in E; [|discriminate]. now subst.
    + apply generate_token_rollback in E; [|discriminate]. now subst.
  - exact C.
  - apply consistent_anchor.
  - now rewrite init_db_invariant.
Qed.

Lemma run_consistent rqs :
  forall st, invariant st -> consistent st ->
             invariant (run st rqs) /\ consistent (run st rqs).
Proof.
  induction rqs as [|rq rqs IH]; intros st I C; simpl; auto.
  apply IH; [now apply step_invariant | now apply step_consistent].
Qed.

Lemma reachable_consistent rqs :
  invariant (run fresh_db rqs) /\ consistent (run fresh_db rqs).
Proof.
  apply run_consistent; [now apply invariant_anchor | apply consistent_anchor].
Qed.

(* ================================================================== *)
(** ** Prices *)

Lemma lines_prices data tn now items es rows :
  lines data tn now items es rows ->
  Forall (fun e => numeric (e_amount e)) es ->
  Forall2 price_of items rows.
Proof.
  induction 1 as [|kv e row items es rows L _ IH]; intros N; constructor.
  - apply Forall_cons_iff in N. destruct N as [Na _].
    destruct L as [_ _ Hprice Hmul _ Hname _ _ _ Sp _].
    split; [exact Hname|]. exists (e_price e). repeat split; auto.
    apply stored_real; auto. eapply py_mul_numeric; eauto.
  - apply Forall_cons_iff in N. destruct N as [_ N]. now apply IH.
Qed.

(** C9 as stated fails: a negative price is accepted and persisted. *)
Lemma negative_price_is_persisted :
  assigned (fst (generate_token negative_price_order morning morning_text
                                fresh_db)) = [1000]
  /\ map o_price
         (orders (snd (generate_token negative_price_order morning
                                      morning_text fresh_db)))
     = [SReal (-5)].
Proof. split; vm_compute; reflexivity. Qed.

(** C9, as the code has it. In every state of a run the price of every
    order line is a REAL, of either sign; and after a call that returned
    200, the new rows of [orders] are the items that passed the quantity
    filter, in order, each with the price the request gave for it, kept as
    a REAL.  No test is made on the price. *)
Theorem persisted_price_is_the_request_price_as_real :
  forall rqs : list request,
    let st := run fresh_db rqs in
    Forall (fun o => is_real (o_price o) = true) (orders st)
    /\ forall data now fmt r st',
         generate_token data now fmt st = (Resp200 r, st') ->
         exists items rows,
           valid_items data = Ok items
           /\ orders st' = orders st ++ rows
           /\ Forall2 price_of items rows.
Proof.
  intros rqs st. destruct (reachable_consistent rqs) as [I C].
  fold st in I, C. split.
  - eapply Forall_impl; [|apply (c_orders C)].
    intros o H. unfold order_as_declared in H.
    destruct (is_real (o_price o)); auto.
    now rewrite andb_false_r in H.
  - intros data now fmt r st' H. apply generate_token_ok in H. inv H.
    destruct (@add_amounts_numeric es (PInt 0) total) as [N _]; auto;
      [discriminate|].
    exists items, rows. repeat split; auto.
    eapply lines_prices; eauto.
Qed.

Lemma persisted_price_is_the_request_price_as_real_witness :
  exists items rows,
    valid_items negative_price_order = Ok items
    /\ orders (snd (generate_token negative_price_order morning morning_text
                                   after_tea))
       = orders after_tea ++ rows
    /\ Forall2 price_of items rows.
Proof.
  eapply (proj2 (persisted_price_is_the_request_price_as_real
                   [PlaceOrder tea_order morning morning_text])
                negative_price_order morning morning_text).
  vm_compute. reflexivity.
Defined.

(* ================================================================== *)
(** ** Malformed items *)

(** C10 as stated fails: an item without a price and with quantity zero is
    filtered out before its price is read, and the answer is a 400. *)
Lemma unpriced_item_filtered_gives_400 :
  py_getitem (PDict [("quantity", PInt 0)]) "price" = Raise (KeyError "price")
  /\ generate_token unpriced_nothing_order morning morning_text fresh_db
     = (Resp400 "No items in order", fresh_db).
Proof. split; reflexivity. Qed.

(** C10, as the code has it. When the body has passed the test of line 72
    and its items are malformed (no dict; an item whose quantity cannot be
    read; an item with a quantity above zero whose price cannot be read),
    the response is a 500 carrying the exception and both tables are as
    they were. *)
Theorem malformed_items_give_500 :
  forall (data : pyval) (now fmt : string) (st : db) (items : pyval),
    invalid_order_data data = Ok false ->
    py_getitem data "items" = Ok items ->
    malformed items ->
    exists e, generate_token data now fmt st = (Resp500 e, st).
Proof.
  intros data now fmt st items Hv Hg Hm.
  unfold generate_token, valid_items. rewrite Hv, Hg. simpl.
  destruct Hm as [Hn|[(d & k & v & -> & Hin & Hq)
                     |(d & k & v & -> & N & Hin & Hp & Hpr)]].
  - destruct items; simpl; eauto. now elim (Hn d).
  - simpl. destruct (@dict_comprehension_raises _ _ _ Hin Hq []) as [e ->].
    eauto.
  - simpl. destruct (dict_comprehension d []) as [kept|e] eqn:Ed; eauto.
    pose proof Ed as Ef.
    apply dict_comprehension_filter in Ef; auto. simpl in Ef.
    assert (Hk : In (k, v) kept).
    { rewrite Ef. apply filter_In. split; auto. now apply keeps_positive. }
    destruct kept as [|kv kept]; [destruct Hk|].
    unfold with_conn, place_order, mbind, select_max_token.
    destruct (@order_loop_raises data
                (next_token_number (max_token_of (tokens st))) now
                _ _ _ Hk Hpr [] (PInt 0) st) as (e & st1 & ->).
    eauto.
Qed.

Lemma malformed_items_give_500_witness :
  exists e,
    generate_token unpriced_order noon noon_text after_tea
    = (Resp500 e, after_tea).
Proof.
  apply (@malformed_items_give_500 unpriced_order noon noon_text after_tea
           (PDict [("tea", line_item (PInt 1) (PInt 10));
                   ("coffee", PDict [("quantity", PInt 1)])])).
  - reflexivity.
  - reflexivity.
  - right. right.
    exists [("tea", line_item (PInt 1) (PInt 10));
            ("coffee", PDict [("quantity", PInt 1)])],
           "coffee", (PDict [("quantity", PInt 1)]).
    split; [reflexivity|]. split.
    + repeat constructor; simpl; intuition discriminate.
    + split; [right; now left|]. split.
      * exists (PInt 1). split; reflexivity.
      * intros p. simpl. discriminate.
Defined.
(* ================================================================== *)
(** ** [init_db] on any file *)

Lemma put_token_has n r l :
  has_token n (put_token r l) = (t_token_number r =? n) || has_token n l.
Proof.
  induction l as [|x l IH]; simpl.
  - reflexivity.
  - destruct (t_token_number r <? t_token_number x); simpl.
    + reflexivity.
    + rewrite IH. destruct (t_token_number x =? n), (t_token_number r =? n);
        reflexivity.
Qed.

(** X1. [init_db] on any file: the orders and every existing token row are
    kept, a row numbered 999 is there afterwards (the sentinel, unless the
    file already had a row 999, which is then left as it is), and a second
    call changes nothing. *)
Theorem init_db_keeps_rows_and_is_idempotent :
  forall st : db,
    init_db (init_db st) = init_db st
    /\ orders (init_db st) = orders st
    /\ orders_seq (init_db st) = orders_seq st
    /\ has_token 999 (tokens (init_db st)) = true
    /\ (forall t, In t (tokens (init_db st)) <->
                  In t (tokens st)
                  \/ (t = sentinel /\ has_token 999 (tokens st) = false)).
Proof.
  intros st. unfold init_db, insert_or_ignore_sentinel.
  change (t_token_number sentinel) with 999.
  destruct (has_token 999 (tokens st)) eqn:E.
  - rewrite E. repeat split; auto.
    intros [H|[_ H]]; [exact H | discriminate].
  - simpl. rewrite put_token_has. simpl. repeat split.
    + intros H. apply put_token_in in H. destruct H; auto.
    + intros [H|[-> _]]; apply put_token_in; auto.
Qed.

(* ================================================================== *)
(** ** The store of a run: order lines, their tokens, the columns *)

(** X3. In every state of a run, each order line has exactly one token
    row, which is not the sentinel and has the line's customer id and
    timestamp; and each token row other than the sentinel has at least one
    order line. *)
Theorem order_lines_belong_to_one_token :
  forall rqs : list request,
    let st := run fresh_db rqs in
    Forall (fun o =>
              exists t,
                In t (tokens st)
                /\ t_token_number t = o_token_number o
                /\ t <> sentinel
                /\ o_customer_id o = t_customer_id t
                /\ o_timestamp o = t_timestamp t
                /\ forall t', In t' (tokens st) ->
                              t_token_number t' = o_token_number o -> t' = t)
           (orders st)
    /\ Forall (fun t =>
                 t = sentinel
                 \/ exists o, In o (orders st)
                              /\ o_token_number o = t_token_number t)
              (tokens st).
Proof.
  intros rqs st. destruct (reachable_consistent rqs) as [I C].
  fold st in I, C. split; apply Forall_forall.
  - intros o Ho.
    pose proof (inv_orders I) as Hall. rewrite Forall_forall in Hall.
    destruct (Hall _ Ho) as [Hge Hin]. apply in_map_iff in Hin.
    destruct Hin as (t & Et & Ht).
    pose proof (c_lines C _ Ht) as Hl. rewrite Forall_forall in Hl.
    assert (Hio : In o (token_lines st t)).
    { apply filter_In. split; auto. unfold order_of_token.
      apply Z.eqb_eq. congruence. }
    destruct (Hl _ Hio) as (Ec & Ets).
    exists t. repeat split; auto.
    + intros ->. simpl in Et. lia.
    + intros t' Ht' Et'. eapply key_injective; eauto.
      * apply (inv_key I).
      * congruence.
  - intros t Ht. destruct (c_nonempty C _ Ht) as [->|Hn]; [now left|].
    right. destruct (token_lines st t) as [|o os] eqn:E; [now elim Hn|].
    assert (Hio : In o (token_lines st t)) by (rewrite E; now left).
    apply filter_In in Hio. destruct Hio as [Hio Eo].
    exists o. split; auto. now apply Z.eqb_eq.
Qed.

(** X4. In every state of a run the columns hold what their declared
    types say.  In [orders] the customer id is text, the quantity an
    INTEGER (a REAL only when it is no integer), price and amount are
    REALs; in [tokens] the customer id is text and the total a REAL.  So an
    integer price is there as a float, a float quantity that is an integer
    as an integer, and a number given as customer id as text. *)
Theorem stored_values_are_as_declared :
  forall rqs : list request,
    let st := run fresh_db rqs in
    Forall (fun o => order_as_declared o = true) (orders st)
    /\ Forall (fun t => token_as_declared t = true) (tokens st).
Proof.
  intros rqs st. destruct (reachable_consistent rqs) as [I C].
  split; [apply (c_orders C) | apply (c_tokens C)].
Qed.

(* ================================================================== *)
(** ** The queue of a run, against the store and the history *)

(** X12. In every state of a run, every entry of the queue has at least
    one item and shows what the columns hold: the customer id as text, the
    total as a REAL, and for each item a text name, the quantity as an
    INTEGER (a REAL only when it is no integer) and the price as a REAL. *)
Theorem queue_entries_are_as_declared :
  forall rqs : list request,
    Forall (fun e =>
              q_items e <> []
              /\ is_text (q_customer_id e) = true
              /\ is_real (q_total e) = true
              /\ Forall (fun it => item_as_declared it = true) (q_items e))
           (get_queue (run fresh_db rqs)).
Proof.
  intros rqs. destruct (reachable_consistent rqs) as [I C].
  set (st := run fresh_db rqs) in *.
  destruct (get_queue_spec I) as (_ & H2 & H3 & _).
  apply Forall_forall. intros e He.
  destruct (H3 _ He) as (t & Ht & E1 & E2 & _ & E4 & E5).
  assert (Hk : In (q_token_number e) (map q_token_number (get_queue st)))
    by now apply in_map.
  apply H2 in Hk. destruct Hk as (o & Ho & Eo).
  assert (Hio : In o (filter (order_of_token (q_token_number e))
                             (orders st))).
  { apply filter_In. split; auto. unfold order_of_token. now apply Z.eqb_eq. }
  pose proof (c_tokens C) as Ct. rewrite Forall_forall in Ct.
  specialize (Ct _ Ht). unfold token_as_declared in Ct.
  apply andb_prop in Ct. destruct Ct as [Ct1 Ct2].
  rewrite E2, E4, E5. repeat split; auto.
  - destruct (filter (order_of_token (q_token_number e)) (orders st));
      [destruct Hio | discriminate].
  - rewrite Forall_map. apply Forall_forall. intros o' Ho'.
    apply filter_In in Ho'. destruct Ho' as [Ho' _].
    pose proof (c_orders C) as Co. rewrite Forall_forall in Co.
    specialize (Co _ Ho'). unfold order_as_declared in Co.
    unfold item_as_declared, item_of_order. simpl.
    destruct (is_integer_kept (o_quantity o')), (is_real (o_price o'));
      auto; rewrite ?andb_false_r in Co; discriminate.
Qed.

Lemma filter_split_perm {A} (p1 p2 : A -> bool) l :
  (forall x, In x l -> p1 x = true -> p2 x = false) ->
  Permutation (filter (fun x => p1 x || p2 x) l)
              (filter p1 l ++ filter p2 l).
Proof.
  induction l as [|x l IH]; simpl; intros D; auto.
  assert (D' : forall y, In y l -> p1 y = true -> p2 y = false)
    by (intros y Hy; apply D; now right).
  specialize (IH D').
  destruct (p1 x) eqn:E1; simpl.
  - rewrite (D x (or_introl eq_refl) E1). now constructor.
  - destruct (p2 x); auto.
    rewrite IH. apply Permutation_middle.
Qed.

(** The lines of a list of distinct tokens, token by token, are the lines
    whose token is in the list. *)
Lemma lines_by_token_perm ks os :
  NoDup ks ->
  Permutation (flat_map (fun k => filter (order_of_token k) os) ks)
              (filter (fun o => existsb (Z.eqb (o_token_number o)) ks) os).
Proof.
  induction 1 as [|k ks Hk N IH]; simpl.
  - induction os; simpl; auto.
  - rewrite IH.
    rewrite <- (@filter_split_perm _ (order_of_token k)
                  (fun o => existsb (Z.eqb (o_token_number o)) ks)).
    + apply Permutation_refl'. apply filter_ext. intros o.
      unfold order_of_token. reflexivity.
    + intros o _ E. unfold order_of_token in E. apply Z.eqb_eq in E.
      destruct (existsb (Z.eqb (o_token_number o)) ks) eqn:Ex; auto.
      apply existsb_exists in Ex. destruct Ex as (k' & Hk' & Ek').
      apply Z.eqb_eq in Ek'. elim Hk. congruence.
Qed.

Lemma flat_map_items (f : Z -> list order_row) ks :
  flat_map (fun k => map item_of_order (f k)) ks
  = map item_of_order (flat_map f ks).
Proof.
  induction ks as [|k ks IH]; simpl; auto. now rewrite map_app, IH.
Qed.

(** X13. In every state of a run the queue shows every order line of the
    store exactly once: the items of all entries together are the rows of
    [orders], up to order. *)
Theorem queue_shows_every_order_line_once :
  forall rqs : list request,
    let st := run fresh_db rqs in
    Permutation (List.concat (map q_items (get_queue st)))
                (map item_of_order (orders st)).
Proof.
  intros rqs st.
  assert (I : invariant st) by (apply reachable_invariant; now exists rqs).
  destruct (get_queue_spec I) as (H1 & H2 & H3 & _).
  assert (E : map q_items (get_queue st)
              = map (fun k => map item_of_order
                                  (filter (order_of_token k) (orders st)))
                    (map q_token_number (get_queue st))).
  { rewrite map_map. apply map_ext_in. intros e He.
    destruct (H3 _ He) as (t & _ & _ & _ & _ & _ & E5). exact E5. }
  rewrite E, <- flat_map_concat_map, flat_map_items.
  apply Permutation_map.
  rewrite (lines_by_token_perm (orders st) H1).
  apply Permutation_refl'. apply filter_all.
  apply Forall_forall. intros o Ho. apply existsb_exists.
  exists (o_token_number o). split; [|apply Z.eqb_refl].
  apply H2. now exists o.
Qed.

Lemma put_token_numbers r l k :
  In k (map t_token_number (put_token r l))
  <-> k = t_token_number r \/ In k (map t_token_number l).
Proof.
  pose proof (Permutation_map t_token_number (put_token_perm r l)) as P.
  simpl in P. split; intros H.
  - apply (Permutation_in _ P) in H. destruct H; auto.
  - apply (Permutation_in _ (Permutation_sym P)). destruct H; [left|right]; auto.
Qed.

(** The token rows are the sentinel and the tokens handed out since the last
    clear. *)
Lemma since_clear_tokens rqs :
  forall st acc,
    invariant st ->
    (forall k, In k (map t_token_number (tokens st)) <-> k = 999 \/ In k acc) ->
    forall k,
      In k (map t_token_number (tokens (run st rqs)))
      <-> k = 999 \/ In k (assigned_since_clear st rqs acc).
Proof.
  induction rqs as [|rq rqs IH]; intros st acc I H; simpl; auto.
  destruct rq as [data now fmt| | |]; simpl.
  - destruct (generate_token data now fmt st) as [rs st'] eqn:E.
    destruct rs as [r|msg|e]; simpl.
    + apply generate_token_ok in E. apply IH.
      * eapply placed_invariant; eauto.
      * inv E. simpl. intros k. rewrite put_token_numbers, H, in_app_iff.
        simpl. intuition congruence.
    + apply generate_token_rollback in E; [|discriminate]. subst.
      rewrite app_nil_r. now apply IH.
    + apply generate_token_rollback in E; [|discriminate]. subst.
      rewrite app_nil_r. now apply IH.
  - now apply IH.
  - apply IH; [now apply invariant_anchor|].
    simpl. intros k. split; [intros [<-|[]]; now left | intros [->|[]]; now left].
  - rewrite init_db_invariant by assumption. now apply IH.
Qed.

Lemma queue_history_perm rqs :
  Permutation (map q_token_number (get_queue (run fresh_db rqs)))
              (assigned_since_clear fresh_db rqs []).
Proof.
  destruct (reachable_consistent rqs) as [I C].
  set (st := run fresh_db rqs) in *.
  set (ts := assigned_since_clear fresh_db rqs []).
  destruct (get_queue_spec I) as (H1 & H2 & _).
  assert (Ets : ts = zseq 1000 (List.length ts)).
  { apply assigned_since_clear_spec;
      [now apply invariant_anchor | reflexivity | reflexivity]. }
  assert (Hts : forall k, In k (map t_token_number (tokens st))
                          <-> k = 999 \/ In k ts).
  { apply since_clear_tokens; [now apply invariant_anchor|].
    simpl. intros k.
    split; [intros [<-|[]]; now left | intros [->|[]]; now left]. }
  apply NoDup_Permutation; auto.
  - rewrite Ets. apply sorted_lt_nodup, zseq_sorted.
  - intros k. rewrite H2. split.
    + intros (o & Ho & <-).
      pose proof (inv_orders I) as Hall. rewrite Forall_forall in Hall.
      destruct (Hall _ Ho) as [Hge Hin]. apply Hts in Hin.
      destruct Hin as [E|Hin]; [lia | exact Hin].
    + intros Hk.
      assert (Hge : 1000 <= k).
      { rewrite Ets in Hk.
        pose proof (zseq_lower 1000 (List.length ts)) as L.
        rewrite Forall_forall in L. now apply L. }
      assert (Hin : In k (map t_token_number (tokens st)))
        by (apply Hts; now right).
      apply in_map_iff in Hin. destruct Hin as (t & Et & Ht).
      destruct (c_nonempty C _ Ht) as [->|Hn]; [simpl in Et; lia|].
      destruct (token_lines st t) as [|o os] eqn:E; [now elim Hn|].
      assert (Hio : In o (token_lines st t)) by (rewrite E; now left).
      apply filter_In in Hio. destruct Hio as [Hio Eo].
      exists o. split; auto. apply Z.eqb_eq in Eo. congruence.
Qed.

(** X14. Over any run, the queue has exactly one entry for each token
    handed out since the last clear (or since the start), and for nothing
    else; so it has as many entries as orders were accepted since then. *)
Theorem queue_is_the_history_since_clear :
  forall rqs : list request,
    let q := get_queue (run fresh_db rqs) in
    let ts := assigned_since_clear fresh_db rqs [] in
    Permutation (map q_token_number q) ts
    /\ List.length q = List.length ts.
Proof.
  intros rqs q ts. pose proof (queue_history_perm rqs) as P.
  split; [exact P|].
  apply Permutation_length in P. now rewrite length_map in P.
Qed.

(* ================================================================== *)
(** ** The receipt against the request *)

(** Item [kv] of the request as entry [e] of the response. *)
Lemma lines_echo data tn now items es rows :
  lines data tn now items es rows ->
  Forall2 (fun kv e =>
             e_item_name e = fst kv
             /\ py_getitem (snd kv) "quantity" = Ok (e_quantity e)
             /\ py_getitem (snd kv) "price" = Ok (e_price e))
          items es.
Proof.
  induction 1 as [|kv e row items es rows L _ IH]; constructor; auto.
  destruct L. auto.
Qed.

Lemma dict_comprehension_evaluates items :
  forall acc d,
    dict_comprehension items acc = Ok d ->
    Forall (fun kv => exists q b, py_getitem (snd kv) "quantity" = Ok q
                                  /\ py_gt0 q = Ok b)
           items.
Proof.
  induction items as [|[k v] items IH]; simpl; intros acc d H; constructor.
  - destruct (py_getitem v "quantity") as [q|] eqn:Eq; try discriminate.
    simpl in H. destruct (py_gt0 q) as [b|] eqn:Eg; try discriminate.
    simpl. eauto.
  - destruct (py_getitem v "quantity") as [q|] eqn:Eq; try discriminate.
    simpl in H. destruct (py_gt0 q) as [b|] eqn:Eg; try discriminate.
    simpl in H. eapply IH; eauto.
Qed.

(** X7. A 200 response echoes the request: the timestamp and formatted
    time are the two readings of the clock, the customer id is the
    request's, and the items are the request's items with a quantity above
    zero, in the request's order, each with the request's quantity and
    price; and every item of the request had a quantity that could be
    compared with zero. *)
Theorem receipt_echoes_kept_items_in_order :
  forall (data : pyval) (now fmt : string) (st st' : db) (r : receipt)
         (pairs : dict),
    generate_token data now fmt st = (Resp200 r, st') ->
    py_getitem data "items" = Ok (PDict pairs) ->
    NoDup (dict_keys pairs) ->
    r_timestamp r = now
    /\ r_formatted_time r = fmt
    /\ py_getitem data "customer_id" = Ok (r_customer_id r)
    /\ Forall2 (fun kv e =>
                  e_item_name e = fst kv
                  /\ py_getitem (snd kv) "quantity" = Ok (e_quantity e)
                  /\ py_getitem (snd kv) "price" = Ok (e_price e))
               (filter keeps pairs) (r_items r)
    /\ Forall (fun kv => exists q b, py_getitem (snd kv) "quantity" = Ok q
                                     /\ py_gt0 q = Ok b)
              pairs.
Proof.
  intros data now fmt st st' r pairs H Hg N.
  apply generate_token_ok in H. inv H. simpl.
  pose proof (valid_items_filter _ Hg N H1) as Ef.
  repeat split; auto.
  - rewrite <- Ef. eapply lines_echo; eauto.
  - unfold valid_items in H1. rewrite Hg in H1. simpl in H1.
    eapply dict_comprehension_evaluates; eauto.
Qed.

Lemma receipt_echoes_kept_items_in_order_witness :
  exists r st',
    generate_token tea_order morning morning_text fresh_db = (Resp200 r, st')
    /\ r_timestamp r = morning
    /\ r_formatted_time r = morning_text
    /\ py_getitem tea_order "customer_id" = Ok (r_customer_id r)
    /\ Forall2 (fun kv e =>
                  e_item_name e = fst kv
                  /\ py_getitem (snd kv) "quantity" = Ok (e_quantity e)
                  /\ py_getitem (snd kv) "price" = Ok (e_price e))
               (filter keeps
                  [("tea", line_item (PInt 2) (PInt 10));
                   ("coffee", line_item (PInt 0) (PInt 20))])
               (r_items r)
    /\ Forall (fun kv => exists q b, py_getitem (snd kv) "quantity" = Ok q
                                     /\ py_gt0 q = Ok b)
              [("tea", line_item (PInt 2) (PInt 10));
               ("coffee", line_item (PInt 0) (PInt 20))].
Proof.
  eexists. eexists. split.
  - vm_compute. reflexivity.
  - eapply (@receipt_echoes_kept_items_in_order
              tea_order morning morning_text fresh_db).
    + vm_compute. reflexivity.
    + reflexivity.
    + repeat constructor; simpl; intuition discriminate.
Defined.

(* ================================================================== *)
(** ** A customer id that cannot be stored *)

Lemma insert_order_unbindable tn c k q p a now st :
  (forall s, bind_param c = Ok s -> s = SNull) ->
  exists e, insert_order tn c k q p a now st = (Raise e, st).
Proof.
  intros Hc. unfold insert_order, not_null.
  destruct (bind_param (PInt tn)) as [stn|e]; simpl; eauto.
  destruct (bind_param c) as [sc|e] eqn:Ec; simpl; eauto.
  rewrite (Hc sc eq_refl).
  destruct (bind_param q) as [sq|e]; simpl; eauto.
  destruct (bind_param p) as [sp|e]; simpl; eauto.
  destruct (bind_param a) as [sa|e]; simpl; eauto.
  destruct (orders_seq st <? int64_max); simpl; eauto.
Qed.

(** X9. A customer id that is present but cannot be stored in a [NOT NULL]
    column (null, a NaN, a list, an object, an integer beyond 64 bits) does
    not get a token: when at least one item passes the filter, the response
    is a 500 and both tables are as they were. *)
Theorem unstorable_customer_id_gives_500 :
  forall (data : pyval) (now fmt : string) (st : db) (c : pyval)
         (items : dict),
    invalid_order_data data = Ok false ->
    valid_items data = Ok items ->
    items <> [] ->
    py_getitem data "customer_id" = Ok c ->
    (forall s, bind_param c = Ok s -> s = SNull) ->
    exists e, generate_token data now fmt st = (Resp500 e, st).
Proof.
  intros data now fmt st c items Hv Hi Hn Hc Hb.
  unfold generate_token. rewrite Hv, Hi.
  destruct items as [|[k v] items]; [now elim Hn|].
  unfold with_conn, place_order, mbind, select_max_token. simpl.
  unfold mbind, lift.
  destruct (py_getitem v "quantity") as [q|e]; eauto.
  destruct (py_getitem v "price") as [p|e]; eauto.
  destruct (py_mul q p) as [a|e]; eauto.
  rewrite Hc.
  destruct (@insert_order_unbindable
              (next_token_number (max_token_of (tokens st))) c k q p a now
              st Hb) as [e ->].
  eauto.
Qed.

Lemma unstorable_customer_id_gives_500_witness :
  exists e,
    generate_token null_customer_order noon noon_text after_tea
    = (Resp500 e, after_tea).
Proof.
  apply (@unstorable_customer_id_gives_500
           null_customer_order noon noon_text after_tea PNone
           [("tea", line_item (PInt 1) (PInt 10))]).
  - reflexivity.
  - reflexivity.
  - discriminate.
  - reflexivity.
  - intros s H. simpl in H. now inv H.
Defined.

(* ================================================================== *)
(** ** Row ids of [orders] *)

Lemma order_loop_ids data tn now items :
  forall acc total st es total' st',
    order_loop data tn now items acc total st = (Ok (es, total'), st') ->
    exists rows,
      orders st' = orders st ++ rows
      /\ map o_id rows = zseq (orders_seq st + 1) (List.length rows)
      /\ orders_seq st' = orders_seq st + Z.of_nat (List.length rows).
Proof.
  induction items as [|[k v] items IH]; intros acc total st es total' st' H.
  - inv H. exists []. simpl. rewrite app_nil_r. repeat split. lia.
  - simpl in H. unfold mbind, lift in H.
    destruct (py_getitem v "quantity") as [q|] eqn:Eq; try discriminate.
    destruct (py_getitem v "price") as [p|] eqn:Ep; try discriminate.
    destruct (py_mul q p) as [a|] eqn:Ea; try discriminate.
    destruct (py_getitem data "customer_id") as [c|] eqn:Ec; try discriminate.
    destruct (insert_order tn c k q p a now st) as [[u|] st1] eqn:Ei;
      try discriminate.
    destruct (py_add total a) as [t1|] eqn:Et; try discriminate.
    apply insert_order_ok in Ei.
    destruct Ei as (c' & q' & p' & a' & _ & _ & _ & _ & ->).
    apply IH in H. destruct H as (rows & O & Hid & S). simpl in O, Hid, S.
    exists (mk_order (orders_seq st + 1) tn c' k q' p' a' now :: rows).
    repeat split.
    + now rewrite O, <- app_assoc.
    + simpl. now rewrite Hid.
    + rewrite S. simpl List.length. lia.
Qed.

(** The rows a call adds get the next row ids, and the counter follows;
    a call that does not return 200 adds none. *)
Lemma generate_token_ids data now fmt st rs st' :
  generate_token data now fmt st = (rs, st') ->
  exists rows,
    orders st' = orders st ++ rows
    /\ map o_id rows = zseq (orders_seq st + 1) (List.length rows)
    /\ orders_seq st' = orders_seq st + Z.of_nat (List.length rows).
Proof.
  intros H.
  assert (Hfail : (forall r, rs <> Resp200 r) ->
            exists rows,
              orders st' = orders st ++ rows
              /\ map o_id rows = zseq (orders_seq st + 1) (List.length rows)
              /\ orders_seq st' = orders_seq st + Z.of_nat (List.length rows)).
  { intros N. apply generate_token_rollback in H; auto. subst st'.
    exists []. simpl. rewrite app_nil_r. repeat split. lia. }
  destruct rs as [r|msg|e]; try (apply Hfail; discriminate).
  clear Hfail. unfold generate_token in H.
  destruct (invalid_order_data data) as [[|]|]; try discriminate.
  destruct (valid_items data) as [[|kv items]|]; try discriminate.
  unfold with_conn, place_order, mbind, select_max_token, lift, mret in H.
  set (tn := next_token_number (max_token_of (tokens st))) in *.
  destruct (order_loop data tn now (kv :: items) [] (PInt 0) st)
    as [[[es total]|] st1] eqn:El; try discriminate.
  apply order_loop_ids in El. destruct El as (rows & O & Hid & S).
  simpl in H.
  destruct (py_getitem data "customer_id") as [c|]; try discriminate.
  destruct (insert_token tn c now total st1) as [[u|] st2] eqn:Et;
    try discriminate.
  apply insert_token_ok in Et.
  destruct Et as (c' & t' & _ & _ & _ & _ & ->).
  inv H. simpl. exists rows. auto.
Qed.

Lemma sorted_app_lt l1 l2 :
  StronglySorted Z.lt l1 -> StronglySorted Z.lt l2 ->
  (forall x y, In x l1 -> In y l2 -> x < y) ->
  StronglySorted Z.lt (l1 ++ l2).
Proof.
  induction 1 as [|x l1 Hs IH Hx]; simpl; intros S2 H; auto.
  constructor.
  - apply IH; auto.
  - rewrite Forall_app. split; auto.
    apply Forall_forall. intros y Hy. apply H; auto.
Qed.

Lemma zseq_bounds a n : Forall (fun x => a <= x < a + Z.of_nat n) (zseq a n).
Proof.
  revert a. induction n as [|n IH]; intros a; simpl zseq; constructor.
  - lia.
  - eapply Forall_impl; [|apply IH]. simpl. intros; lia.
Qed.

Lemma added_rows_ids st st' rows :
  ids_ok st ->
  orders st' = orders st ++ rows ->
  map o_id rows = zseq (orders_seq st + 1) (List.length rows) ->
  orders_seq st' = orders_seq st + Z.of_nat (List.length rows) ->
  ids_ok st'
  /\ orders_seq st <= orders_seq st'
  /\ Forall (fun o => In o (orders st) \/ orders_seq st < o_id o)
            (orders st').
Proof.
  intros [Hs Hb] O Hid S.
  assert (Hr : Forall (fun o => orders_seq st + 1 <= o_id o
                                < orders_seq st + 1
                                  + Z.of_nat (List.length rows)) rows).
  { pose proof (zseq_bounds (orders_seq st + 1) (List.length rows)) as B.
    rewrite <- Hid in B. now rewrite Forall_map in B. }
  rewrite Forall_forall in Hr, Hb.
  repeat split.
  - rewrite O, map_app. apply sorted_app_lt; auto.
    + rewrite Hid. apply zseq_sorted.
    + intros x y Hx Hy. apply in_map_iff in Hx, Hy.
      destruct Hx as (o & <- & Ho), Hy as (o' & <- & Ho').
      specialize (Hb _ Ho). specialize (Hr _ Ho'). lia.
  - rewrite O, S. apply Forall_forall. intros o Ho.
    apply in_app_or in Ho. destruct Ho as [Ho|Ho].
    + specialize (Hb _ Ho). lia.
    + specialize (Hr _ Ho). lia.
  - lia.
  - rewrite O. apply Forall_forall. intros o Ho.
    apply in_app_or in Ho. destruct Ho as [Ho|Ho]; [now left|].
    right. specialize (Hr _ Ho). lia.
Qed.

Lemma step_ids st rq :
  ids_ok st ->
  ids_ok (step st rq)
  /\ orders_seq st <= orders_seq (step st rq)
  /\ Forall (fun o => In o (orders st) \/ orders_seq st < o_id o)
            (orders (step st rq)).
Proof.
  intros K. destruct rq as [data now fmt| | |]; simpl.
  - destruct (generate_token data now fmt st) as [rs st'] eqn:E.
    apply generate_token_ids in E. destruct E as (rows & O & Hid & S).
    simpl. eapply added_rows_ids; eauto.
  - repeat split; try apply K; try lia.
    apply Forall_forall. intros o Ho. now left.
  - repeat split; simpl; try constructor. lia.
  - unfold init_db, insert_or_ignore_sentinel.
    destruct (has_token (t_token_number sentinel) (tokens st)); simpl;
      (repeat split; try apply K; try lia;
       apply Forall_forall; intros o Ho; now left).
Qed.

Lemma run_ids rqs :
  forall st,
    ids_ok st ->
    ids_ok (run st rqs)
    /\ orders_seq st <= orders_seq (run st rqs)
    /\ Forall (fun o => In o (orders st) \/ orders_seq st < o_id o)
              (orders (run st rqs)).
Proof.
  induction rqs as [|rq rqs IH]; intros st K; simpl.
  - repeat split; try apply K; try lia.
    apply Forall_forall. intros o Ho. now left.
  - destruct (step_ids rq K) as (K1 & L1 & F1).
    destruct (IH _ K1) as (K2 & L2 & F2).
    repeat split; try apply K2; try lia.
    rewrite Forall_forall in *. intros o Ho.
    destruct (F2 _ Ho) as [Hin|Hlt]; [apply F1, Hin | right; lia].
Qed.

(** X6. Row ids of [orders] are never reused, also across a clear: over a
    run and any continuation of it, the counter never goes down, every row
    present after the continuation is a row that was there before or has an
    id above the counter as it was, and the ids are in increasing order in
    the table. *)
Theorem order_ids_are_never_reused :
  forall rqs more : list request,
    let st := run fresh_db rqs in
    let st' := run st more in
    orders_seq st <= orders_seq st'
    /\ Forall (fun o => o_id o <= orders_seq st) (orders st)
    /\ Forall (fun o => In o (orders st) \/ orders_seq st < o_id o)
              (orders st')
    /\ StronglySorted Z.lt (map o_id (orders st')).
Proof.
  intros rqs more st st'.
  assert (K0 : ids_ok fresh_db) by (split; simpl; constructor).
  destruct (run_ids rqs K0) as (K & _ & _). fold st in K.
  destruct (run_ids more K) as (K' & L & F). fold st' in K', L, F.
  repeat split; auto; try apply K; apply K'.
Qed.

(* ================================================================== *)
(** ** Integer orders within 64 bits are accepted *)

(** X8. An order of integer quantities and prices is accepted whenever
    it can be stored: on a state of a run, with distinct item names, at
    least one quantity above zero, quantities, prices and amounts of the
    kept items and the total within 64 bits, and room left for the row ids
    and the token number, the response is a 200 with the next token number,
    the kept items in order with [amount = quantity * price], and the sum of
    the amounts as total. *)
Theorem integer_order_is_accepted :
  forall (rqs : list request) (customer : string)
         (l : list (string * (Z * Z))) (now fmt : string),
    let st := run fresh_db rqs in
    let token_number := next_token_number (max_token_of (tokens st)) in
    NoDup (map fst l) ->
    kept l <> [] ->
    Forall storable (kept l) ->
    fits_int64 (int_total (kept l)) = true ->
    orders_seq st + Z.of_nat (List.length (kept l)) <= int64_max ->
    fits_int64 token_number = true ->
    exists st',
      generate_token (int_order customer l) now fmt st
      = (Resp200 (mk_receipt token_number now (PInt (int_total (kept l)))
                    (map int_entry (kept l)) (PStr customer) fmt),
         st').
Proof.
  intros rqs customer l now fmt st tn N Hk Hs Ftot Hseq Ftn.
  assert (I : invariant st) by (apply reachable_invariant; now exists rqs).
  destruct (@int_order_placed st customer l now fmt I N Hk Hs Ftot Hseq Ftn)
    as (st' & E & _).
  exists st'. exact E.
Qed.

Lemma integer_order_is_accepted_witness :
  exists st',
    generate_token
      (int_order "c1" [("tea", (2, 10)); ("coffee", (0, 20)); ("vada", (3, 15))])
      noon noon_text after_tea
    = (Resp200 (mk_receipt 1001 noon (PInt 65)
                  [mk_entry "tea" (PInt 2) (PInt 10) (PInt 20);
                   mk_entry "vada" (PInt 3) (PInt 15) (PInt 45)]
                  (PStr "c1") noon_text),
       st').
Proof.
  apply (@integer_order_is_accepted
           [PlaceOrder tea_order morning morning_text] "c1"
           [("tea", (2, 10)); ("coffee", (0, 20)); ("vada", (3, 15))]
           noon noon_text).
  - repeat constructor; simpl; intuition discriminate.
  - discriminate.
  - repeat constructor.
  - reflexivity.
  - vm_compute. discriminate.
  - reflexivity.
Defined.

(* ================================================================== *)
(** ** A clock that advances *)

Lemma earlier_excludes a b : earlier a b -> not_earlier a b -> False.
Proof. unfold earlier, not_earlier. congruence. Qed.

Lemma run_chronological rqs :
  forall st,
    invariant st ->
    chronological st ->
    StronglySorted earlier (order_times rqs) ->
    Forall (all_before st) (order_times rqs) ->
    chronological (run st rqs).
Proof.
  induction rqs as [|rq rqs IH]; intros st I C S B; simpl; auto.
  destruct rq as [data now fmt| | |]; simpl in *.
  - apply StronglySorted_inv in S. destruct S as [S Hnow].
    apply Forall_cons_iff in B. destruct B as [Bnow B].
    destruct (generate_token data now fmt st) as [rs st'] eqn:E.
    destruct rs as [r|msg|e]; simpl.
    + apply generate_token_ok in E.
      pose proof (placed_invariant I E) as I'.
      destruct (placed_max I E) as (m & Em & Hm & Er & _).
      apply max_token_of_spec in Em. destruct Em as [_ Hub].
      rewrite Forall_forall in Hub.
      inv E. simpl in Er. subst token_number. rewrite Er in *.
      apply IH; auto.
      * intros t1 t2 Ha Hb Hge Hlt. simpl in Ha, Hb.
        apply put_token_in in Ha, Hb.
        destruct Ha as [->|Ha], Hb as [->|Hb]; simpl in *.
        -- lia.
        -- specialize (Hub _ Hb). lia.
        -- unfold all_before in Bnow. rewrite Forall_forall in Bnow.
           now apply Bnow.
        -- now apply C.
      * rewrite Forall_forall in *. intros s Hs.
        unfold all_before. simpl. apply Forall_forall. intros t0 Ht Hge.
        apply put_token_in in Ht. destruct Ht as [->|Ht]; simpl.
        -- now apply Hnow.
        -- specialize (B _ Hs). unfold all_before in B.
           rewrite Forall_forall in B. now apply B.
    + apply generate_token_rollback in E; [|discriminate]. subst.
      now apply IH.
    + apply generate_token_rollback in E; [|discriminate]. subst.
      now apply IH.
  - now apply IH.
  - apply IH; auto.
    + now apply invariant_anchor.
    + intros t1 t2 [<-|[]] _ Hge _. simpl in Hge. lia.
    + apply Forall_forall. intros s _. unfold all_before. simpl.
      constructor; [simpl; lia | constructor].
  - rewrite init_db_invariant by assumption. now apply IH.
Qed.

Lemma newest_first_by_number (l : list queue_entry) :
  (forall a b, In a l -> In b l ->
               q_token_number a < q_token_number b ->
               earlier (q_timestamp a) (q_timestamp b)) ->
  NoDup (map q_token_number l) ->
  StronglySorted newest_first l ->
  StronglySorted (fun a b => q_token_number b < q_token_number a) l.
Proof.
  induction l as [|x l IH]; intros P N S; constructor.
  - apply IH.
    + intros a b Ha Hb. apply P; now right.
    + now inv N.
    + now inv S.
  - apply StronglySorted_inv in S. destruct S as [_ Hx].
    apply NoDup_cons_iff in N. destruct N as [Nx _].
    rewrite Forall_forall in *. intros y Hy.
    destruct (Z.lt_trichotomy (q_token_number y) (q_token_number x))
      as [Hlt|[Heq|Hgt]]; auto.
    + elim Nx. rewrite <- Heq. now apply in_map.
    + exfalso. apply (@earlier_excludes (q_timestamp x) (q_timestamp y)).
      * apply P; auto. now left. now right.
      * now apply Hx.
Qed.

Lemma sorted_rev_lt l :
  StronglySorted Z.lt l -> StronglySorted (fun a b => b < a) (rev l).
Proof.
  induction 1 as [|x l Hs IH Hx]; simpl.
  - constructor.
  - apply sorted_snoc; auto.
    apply Forall_forall. intros y Hy. apply in_rev in Hy.
    rewrite Forall_forall in Hx. now apply Hx.
Qed.

(** Two decreasing lists with the same elements are the same list. *)
Lemma sorted_perm_eq l1 :
  forall l2,
    StronglySorted (fun a b : Z => b < a) l1 ->
    StronglySorted (fun a b : Z => b < a) l2 ->
    Permutation l1 l2 -> l1 = l2.
Proof.
  induction l1 as [|x l1 IH]; intros l2 S1 S2 P.
  - apply Permutation_nil in P. now subst.
  - destruct l2 as [|y l2].
    + apply Permutation_sym, Permutation_nil in P. discriminate.
    + apply StronglySorted_inv in S1, S2.
      destruct S1 as [S1 H1], S2 as [S2 H2].
      rewrite Forall_forall in H1, H2.
      assert (E : x = y).
      { assert (Hx : In x (y :: l2))
          by (eapply Permutation_in; [exact P | now left]).
        assert (Hy : In y (x :: l1))
          by (eapply Permutation_in;
              [apply Permutation_sym; exact P | now left]).
        destruct Hx as [Hx|Hx]; [now subst|].
        destruct Hy as [Hy|Hy]; [now subst|].
        specialize (H1 _ Hy). specialize (H2 _ Hx). lia. }
      subst y. f_equal. apply IH; auto.
      eapply Permutation_cons_inv; eauto.
Qed.

(** X15. When the clock advances strictly from one PlaceOrder request to
    the next, the queue lists the tokens handed out since the last clear
    (or since the start) from the newest to the oldest. *)
Theorem queue_is_newest_token_first :
  forall rqs : list request,
    StronglySorted earlier (order_times rqs) ->
    map q_token_number (get_queue (run fresh_db rqs))
    = rev (assigned_since_clear fresh_db rqs []).
Proof.
  intros rqs S.
  assert (I : invariant (run fresh_db rqs))
    by (apply reachable_invariant; now exists rqs).
  assert (C : chronological (run fresh_db rqs)).
  { apply run_chronological; auto.
    - now apply invariant_anchor.
    - intros t1 t2 [<-|[]] _ Hge _. simpl in Hge. lia.
    - apply Forall_forall. intros s _. unfold all_before. simpl.
      constructor; [simpl; lia | constructor]. }
  set (st := run fresh_db rqs) in *.
  destruct (get_queue_spec I) as (H1 & H2 & H3 & H4).
  pose proof (queue_history_perm rqs) as P. fold st in P.
  assert (Ets : assigned_since_clear fresh_db rqs []
                = zseq 1000 (List.length
                               (assigned_since_clear fresh_db rqs []))).
  { apply assigned_since_clear_spec;
      [now apply invariant_anchor | reflexivity | reflexivity]. }
  apply sorted_perm_eq.
  - apply (sorted_map q_token_number (fun a b => b < a)).
    apply newest_first_by_number; auto.
    intros a b Ha Hb Hlt.
    destruct (H3 _ Ha) as (ta & Hta & Ea & _ & Eta & _).
    destruct (H3 _ Hb) as (tb & Htb & Eb & _ & Etb & _).
    rewrite Eta, Etb. apply C; auto; try lia.
    assert (Hk : In (q_token_number a) (map q_token_number (get_queue st)))
      by now apply in_map.
    apply H2 in Hk. destruct Hk as (o & Ho & Eo).
    pose proof (inv_orders I) as Hall. rewrite Forall_forall in Hall.
    destruct (Hall _ Ho) as [Hge _]. lia.
  - rewrite Ets. apply sorted_rev_lt, zseq_sorted.
  - rewrite P. apply Permutation_rev.
Qed.

Lemma queue_is_newest_token_first_witness :
  map q_token_number
      (get_queue (run fresh_db [PlaceOrder tea_order morning morning_text;
                                GetQueue;
                                PlaceOrder unpriced_order noon noon_text;
                                PlaceOrder dosa_order noon_later noon_text]))
  = rev (assigned_since_clear fresh_db
           [PlaceOrder tea_order morning morning_text;
            GetQueue;
            PlaceOrder unpriced_order noon noon_text;
            PlaceOrder dosa_order noon_later noon_text] []).
Proof.
  apply queue_is_newest_token_first.
  repeat constructor.
Defined.

(* ================================================================== *)
(** ** [get_queue] on any contents of the tables *)

(** X11. Whatever the two tables hold, the queue is an inner join: it has
    an entry for a token number exactly when that number has both a token
    row and an order line, never two entries for the same number, and its
    entries come newest timestamp first; with no order line, or no token
    row, it is empty. *)
Theorem get_queue_is_an_inner_join :
  forall (ts : list token_row) (os : list order_row) (n : Z),
    let q := get_queue (mk_db ts os n) in
    NoDup (map q_token_number q)
    /\ (forall k, In k (map q_token_number q) <->
                  exists t o, In t ts /\ In o os
                              /\ t_token_number t = k
                              /\ o_token_number o = k)
    /\ StronglySorted newest_first q
    /\ get_queue (mk_db ts [] n) = []
    /\ get_queue (mk_db [] os n) = [].
Proof.
  intros ts os n q.
  assert (Hall : forall st,
            NoDup (map q_token_number (get_queue st))
            /\ (forall k, In k (map q_token_number (get_queue st)) <->
                  exists t o, In t (tokens st) /\ In o (orders st)
                              /\ t_token_number t = k
                              /\ o_token_number o = k)
            /\ StronglySorted newest_first (get_queue st)).
  { intros st. unfold get_queue.
    pose proof (grouped_fold (select_queue st)) as G.
    set (u := fold_left group_step (select_queue st) []) in *.
    rewrite (grouped_tokens G). repeat split.
    - apply (g_keys G).
    - intros Hk. apply in_map_iff in Hk. destruct Hk as ([k' e] & <- & Hin).
      destruct (g_entry G _ _ Hin) as (_ & _ & r & Hr & Er & _).
      apply select_queue_in in Hr.
      destruct Hr as (t & o & Ht & Ho & E & ->). simpl in Er.
      exists t, o. simpl. repeat split; auto; congruence.
    - intros (t & o & Ht & Ho & <- & Eo).
      apply (g_rows G (join_row t o)).
      apply select_queue_in. exists t, o. auto.
    - apply (sorted_map q_timestamp not_earlier).
      rewrite map_map. apply stamps_sorted. apply order_by_sorted. }
  assert (Hnil : forall st,
            (forall k, ~ In k (map q_token_number (get_queue st))) ->
            get_queue st = []).
  { intros st H. destruct (get_queue st) as [|e l]; auto.
    elim (H (q_token_number e)). now left. }
  destruct (Hall (mk_db ts os n)) as (H1 & H2 & H3).
  split; [exact H1|]. split; [exact H2|]. split; [exact H3|]. split.
  - apply Hnil. intros k Hk.
    apply (proj1 (proj2 (Hall (mk_db ts [] n)))) in Hk.
    destruct Hk as (t & o & _ & [] & _).
  - apply Hnil. intros k Hk.
    apply (proj1 (proj2 (Hall (mk_db [] os n)))) in Hk.
    destruct Hk as (t & o & [] & _).
Qed.

(* ================================================================== *)
(** ** [generate_token] only appends *)

(** X5. Whatever the store holds and whatever the request is,
    [generate_token] changes no existing row: the rows of [orders]
    before the call are the first rows after it, every token row is still
    there, at most one token row is added, and the row-id counter does not
    go down. *)
Theorem generate_token_only_appends :
  forall (data : pyval) (now fmt : string) (st : db),
    let st' := snd (generate_token data now fmt st) in
    (exists rows, orders st' = orders st ++ rows)
    /\ Forall (fun t => In t (tokens st')) (tokens st)
    /\ (List.length (tokens st') <= S (List.length (tokens st)))%nat
    /\ orders_seq st <= orders_seq st'.
Proof.
  intros data now fmt st st'. subst st'.
  destruct (generate_token data now fmt st) as [rs st'] eqn:E. simpl.
  destruct (generate_token_ids _ _ _ _ E) as (rows & O & _ & Hseq).
  split; [now exists rows|].
  assert (Htok : Forall (fun t => In t (tokens st')) (tokens st)
                 /\ (List.length (tokens st')
                     <= S (List.length (tokens st)))%nat).
  { destruct rs as [r|msg|e].
    - apply generate_token_ok in E. inv E. simpl. split.
      + apply Forall_forall. intros t0 Ht0. apply put_token_in. now right.
      + rewrite (Permutation_length (put_token_perm _ _)). simpl. lia.
    - apply generate_token_rollback in E; [|discriminate]. subst. split.
      + apply Forall_forall. auto.
      + lia.
    - apply generate_token_rollback in E; [|discriminate]. subst. split.
      + apply Forall_forall. auto.
      + lia. }
  destruct Htok. repeat split; auto. lia.
Qed.

(* ================================================================== *)
(** ** The first item that cannot be tested *)

Lemma dict_comprehension_first_raise good k v rest e :
  Forall (fun kv => exists b, quantity_test (snd kv) = Ok b) good ->
  quantity_test v = Raise e ->
  forall acc,
    dict_comprehension (good ++ (k, v) :: rest) acc = Raise e.
Proof.
  unfold quantity_test.
  induction 1 as [|[k0 v0] good [b Hb] _ IH]; intros Hv acc; simpl.
  - destruct (py_getitem v "quantity") as [q|e']; simpl in *.
    + now rewrite Hv.
    + now inv Hv.
  - simpl in Hb.
    destruct (py_getitem v0 "quantity") as [q|e']; simpl in *;
      try discriminate.
    rewrite Hb. simpl. now apply IH.
Qed.

(** X10. The 500 of a malformed item carries the exception of the first
    item whose test [v['quantity'] > 0] raises: when the body has passed the
    test of line 72 and the items before that one can all be tested, the
    response is a 500 with the exception that item's test raised, later
    items are not looked at, and both tables are as they were. *)
Theorem first_untestable_item_decides_the_500 :
  forall (data : pyval) (now fmt : string) (st : db)
         (good rest : dict) (k : string) (v : pyval) (e : exn),
    invalid_order_data data = Ok false ->
    py_getitem data "items" = Ok (PDict (good ++ (k, v) :: rest)) ->
    Forall (fun kv => exists b, quantity_test (snd kv) = Ok b) good ->
    quantity_test v = Raise e ->
    generate_token data now fmt st = (Resp500 e, st).
Proof.
  intros data now fmt st good rest k v e Hv Hg Hgood He.
  unfold generate_token, valid_items. rewrite Hv, Hg. simpl.
  now rewrite (@dict_comprehension_first_raise good k v rest e Hgood He []).
Qed.

(** What the test raises: a [TypeError] on an item that is no object, a
    [KeyError] on an object without ["quantity"]. *)
Lemma quantity_test_errors v :
  ((forall d, v <> PDict d) -> quantity_test v = Raise TypeError)
  /\ (forall d, v = PDict d -> dict_get d "quantity" = None ->
                quantity_test v = Raise (KeyError "quantity")).
Proof.
  unfold quantity_test. split.
  - intros Hn. destruct v; simpl; auto. now elim (Hn d).
  - intros d -> Hd. simpl. now rewrite Hd.
Qed.

Lemma first_untestable_item_decides_the_500_witness :
  generate_token number_item_order noon noon_text after_tea
  = (Resp500 TypeError, after_tea).
Proof.
  apply (@first_untestable_item_decides_the_500
           number_item_order noon noon_text after_tea
           [("tea", line_item (PInt 1) (PInt 10))] [("vada", PNone)]
           "coffee" (PInt 5) TypeError).
  - reflexivity.
  - reflexivity.
  - repeat constructor. exists true. reflexivity.
  - reflexivity.
Defined.

(* ================================================================== *)
(** ** Restarting the process *)

Lemma run_app st rqs more : run st (rqs ++ more) = run (run st rqs) more.
Proof. unfold run. apply fold_left_app. Qed.

(** X2. A restart changes nothing: in every state of a run [init_db]
    leaves the file as it is, so a run with a restart in it ends in the
    same state as the run without it, and the numbering goes on from the
    largest token number instead of starting again at 1000. *)
Theorem restart_changes_nothing :
  forall rqs more : list request,
    init_db (run fresh_db rqs) = run fresh_db rqs
    /\ run fresh_db (rqs ++ Restart :: more) = run fresh_db (rqs ++ more)
    /\ forall calls,
         place_all (run fresh_db (rqs ++ [Restart])) calls
         = place_all (run fresh_db rqs) calls.
Proof.
  intros rqs more.
  assert (E : init_db (run fresh_db rqs) = run fresh_db rqs).
  { apply init_db_invariant, reachable_invariant. now exists rqs. }
  repeat split; auto.
  - rewrite !run_app. simpl. now rewrite E.
  - intros calls. rewrite run_app. simpl. now rewrite E.
Qed.
